(** * flask_admin.model.form: a shallow embedding and its properties

    The module [flask_admin/model/form.py] is metadata glue over WTForms:
    a registry of converter methods found by scanning an object, a resolver
    that walks a column type's method-resolution order, a transformer that
    derives the editable-list form class, and the inline-admin descriptors
    with their converter base.

    Python objects that the code mutates or compares by identity live in an
    explicit store ([gmap] from locations to objects); dictionaries are
    [gmap]s, and a class namespace that the code iterates is an association
    list in insertion order. *)

From stdpp Require Import gmap strings list fin_maps fin_sets.

Open Scope string_scope.
Open Scope list_scope.

(** ** Exceptions raised by the modelled code *)

Inductive exn :=
| TypeError (msg : string)
| AttributeError (msg : string)
| IndexError (msg : string)
| Exception_ (msg : string).

(** * Converter registry and resolver: [converts], [ModelConverterBase] *)

Module Converter.

(** A member of a converter object as [getattr(self, name)] yields it.  The
    decorator [converts] attaches the attribute [_converter_for]; members
    that were never decorated have none, which is what
    [hasattr(obj, '_converter_for')] tests. *)
Record member := Member {
  member_name : string;
  _converter_for : option (gset string)
}.

#[global] Instance member_eq_dec : EqDecision member.
Proof. solve_decision. Defined.

(** The decorator [converts]: [func._converter_for = frozenset(args)]. *)
Definition converts (args : list string) (func : member) : member :=
  {| member_name := member_name func;
     _converter_for := Some (list_to_set args) |}.

Record ModelConverterBase := {
  use_mro : bool;
  converters : gmap string member
}.

(** The inner loop [for classname in obj._converter_for:
    converters[classname] = obj], guarded by the [hasattr] test. *)
Definition register_member (convs : gmap string member) (obj : member)
  : gmap string member :=
  match _converter_for obj with
  | Some ids => set_fold (λ classname acc, <[classname := obj]> acc) convs ids
  | None => convs
  end.

(** [if not converters: converters = {}]: [None] and the empty dictionary
    both start the scan from an empty mapping. *)
Definition seed_mapping (seed : option (gmap string member))
  : gmap string member :=
  match seed with
  | Some m => if decide (size m = 0) then ∅ else m
  | None => ∅
  end.

(** [ModelConverterBase.__init__].  [members] is the list of
    [(name, getattr(self, name))] for [name] in [dir(self)], in that order. *)
Definition init (members : list (string * member))
    (seed : option (gmap string member)) (mro : bool) : ModelConverterBase :=
  {| use_mro := mro;
     converters := foldl register_member (seed_mapping seed) (members.*2) |}.

(** A class object as the resolver reads it. *)
Record pytype := PyType {
  __module__ : string;
  __name__ : string
}.

#[global] Instance pytype_eq_dec : EqDecision pytype.
Proof. solve_decision. Defined.

(** A column: [type(column.type)] and the rest of that class's
    method-resolution order. *)
Record column := Column {
  column_type : pytype;
  ancestors : list pytype
}.

(** [inspect.getmro(type(column.type))]: the class itself comes first. *)
Definition getmro (c : column) : list pytype := column_type c :: ancestors c.

(** ['%s.%s' % (col_type.__module__, col_type.__name__)] *)
Definition type_string (col_type : pytype) : string :=
  __module__ col_type +:+ "." +:+ __name__ col_type.

(** First loop of [get_converter]: search by module + name. *)
Fixpoint search_by_module_name (convs : gmap string member)
    (types : list pytype) : option member :=
  match types with
  | [] => None
  | col_type :: rest =>
      match convs !! type_string col_type with
      | Some conv => Some conv
      | None => search_by_module_name convs rest
      end
  end.

(** Second loop of [get_converter]: search by name. *)
Fixpoint search_by_name (convs : gmap string member)
    (types : list pytype) : option member :=
  match types with
  | [] => None
  | col_type :: rest =>
      match convs !! __name__ col_type with
      | Some conv => Some conv
      | None => search_by_name convs rest
      end
  end.

(** [ModelConverterBase.get_converter]; [None] is Python's [None]. *)
Definition get_converter (self : ModelConverterBase) (col : column)
  : option member :=
  let types := if use_mro self then getmro col else [column_type col] in
  match search_by_module_name (converters self) types with
  | Some conv => Some conv
  | None => search_by_name (converters self) types
  end.

End Converter.

(** * The editable-list form: [create_editable_list_form] *)

Module ListForm.

Abbreviation loc := positive.

Inductive widget :=
| XEditableWidget
| Widget (name : string).

Inductive validator :=
| InputRequired
| Validator (name : string).

Inductive field_class :=
| HiddenField
| Field (name : string).

(** A value of the [kwargs] dictionary of an unbound field. *)
Inductive kwarg :=
| KWidget (w : widget)
| KValidators (vs : list validator)
| KValue (repr : string).

(** WTForms' [UnboundField]: the field class with the arguments it will be
    built from.  [create_editable_list_form] writes to [kwargs]. *)
Record UnboundField := {
  field_class_of : field_class;
  args : list string;
  kwargs : gmap string kwarg
}.

(** The store of field objects: two names bound to one location are one
    object. *)
Abbreviation heap := (gmap loc UnboundField).

(** A value found in a class namespace; [AField] is what
    [isinstance(obj, UnboundField)] accepts. *)
Inductive attr :=
| AField (l : loc)
| AOther (repr : string).

(** A form class: its bases and its own namespace [__dict__] in insertion
    order, which is the order [iteritems] follows. *)
Record form_class := {
  class_name : string;
  bases : list string;
  __dict__ : list (string * attr)
}.

(** Lookup of a name in a class's own namespace. *)
Fixpoint dict_get (d : list (string * attr)) (name : string) : option attr :=
  match d with
  | [] => None
  | (k, v) :: rest => if decide (k = name) then Some v else dict_get rest name
  end.

(** Assignment in a namespace: an existing key keeps its position, a new
    key is added at the end. *)
Fixpoint dict_set (d : list (string * attr)) (name : string) (v : attr)
  : list (string * attr) :=
  match d with
  | [] => [(name, v)]
  | (k, v0) :: rest =>
      if decide (k = name) then (k, v) :: rest
      else (k, v0) :: dict_set rest name v
  end.

(** [setattr(cls, name, obj)] *)
Definition setattr (cls : form_class) (name : string) (obj : attr)
  : form_class :=
  {| class_name := class_name cls;
     bases := bases cls;
     __dict__ := dict_set (__dict__ cls) name obj |}.

(** [obj.kwargs[key] = v] on one field object. *)
Definition set_kwarg (key : string) (v : kwarg) (f : UnboundField)
  : UnboundField :=
  {| field_class_of := field_class_of f;
     args := args f;
     kwargs := <[key := v]> (kwargs f) |}.

(** [HiddenField(validators=[InputRequired()])] *)
Definition hidden_required : UnboundField :=
  {| field_class_of := HiddenField;
     args := [];
     kwargs := {[ "validators" := KValidators [InputRequired] ]} |}.

(** The loop over [iteritems(form_class.__dict__)].  The store is threaded
    through; raising leaves the store as the loop had changed it so far. *)
Fixpoint copy_fields (w : widget) (items : list (string * attr))
    (ListForm : form_class) (h : heap) : heap * (exn + form_class) :=
  match items with
  | [] => (h, inr ListForm)
  | (name, obj) :: rest =>
      match obj with
      | AField l =>
          let h' := alter (set_kwarg "widget" (KWidget w)) l h in
          let ListForm' := setattr ListForm name (AField l) in
          if decide (name = "list_form_pk")
          then (h', inl (Exception_ "Form already has a list_form_pk column."))
          else copy_fields w rest ListForm' h'
      | AOther _ => copy_fields w rest ListForm h
      end
  end.

(** [if widget is None: widget = XEditableWidget()] *)
Definition widget_or_default (w : option widget) : widget :=
  match w with None => XEditableWidget | Some w => w end.

(** [create_editable_list_form(form_base_class, form_class, widget=None)].
    The class statement allocates the [list_form_pk] field at a fresh
    location; the namespace of [ListForm] is modelled with the entries this
    function writes (the bookkeeping entries Python and WTForms add to every
    class are no fields and are left out). *)
Definition create_editable_list_form (form_base_class : string)
    (form_cls : form_class) (w : option widget) (h : heap)
  : heap * (exn + form_class) :=
  let w := widget_or_default w in
  let pk := fresh (dom h) in
  let h1 := <[pk := hidden_required]> h in
  let ListForm :=
    {| class_name := "ListForm";
       bases := [form_base_class];
       __dict__ := [("list_form_pk", AField pk)] |} in
  copy_fields w (__dict__ form_cls) ListForm h1.

(** The unbound fields of a namespace, each with the location of its
    object, and the names they are declared under. *)
Definition fields (d : list (string * attr)) : list (string * loc) :=
  omap (λ kv, match kv.2 with
              | AField l => Some (kv.1, l)
              | AOther _ => None
              end) d.

Definition field_names (d : list (string * attr)) : list string :=
  (fields d).*1.

(** Every field of the namespace is an object of the store. *)
Definition fields_allocated (d : list (string * attr)) (h : heap) : Prop :=
  ∀ name l, (name, AField l) ∈ d → is_Some (h !! l).

End ListForm.

(** * Inline-admin descriptors and the inline converter base *)

Module Inline.

Abbreviation loc := positive.

(** The Python values this part of the module handles.  [VRef] is a
    reference to an instance in the store; [VRuleSet] stands for the object
    [rules.RuleSet(view, rules)] builds, which belongs to another module. *)
#[warnings="-register-all"]
Inductive pyval :=
| VNone
| VBool (b : bool)
| VInt (n : Z)
| VStr (s : string)
| VTuple (xs : list pyval)
| VList (xs : list pyval)
| VDict (kvs : gmap string pyval)
| VClass (name : string)
| VRef (l : loc)
| VRuleSet (view : loc) (rules : pyval).

(** Python's truth value of an object, as [if x:] tests it. *)
Definition truthy (v : pyval) : bool :=
  match v with
  | VNone => false
  | VBool b => b
  | VInt n => negb (n =? 0)%Z
  | VStr s => negb (String.eqb s "")
  | VTuple xs | VList xs => negb (Nat.eqb (length xs) 0)
  | VDict kvs => negb (Nat.eqb (size kvs) 0)
  | VClass _ | VRef _ | VRuleSet _ _ => true
  end.

(** An instance: the method-resolution order of its class (by name), the
    data attributes its classes define, and its own [__dict__]. *)
Record pyobject := {
  ob_mro : list string;
  ob_class_attrs : gmap string pyval;
  ob_dict : gmap string pyval
}.

Abbreviation heap := (gmap loc pyobject).

(** Attribute lookup: the instance first, then its classes. *)
Definition getattr (o : pyobject) (k : string) : option pyval :=
  match ob_dict o !! k with
  | Some v => Some v
  | None => ob_class_attrs o !! k
  end.

(** [getattr(o, k, default)] *)
Definition getattr_default (o : pyobject) (k : string) (d : pyval) : pyval :=
  match getattr o k with Some v => v | None => d end.

Definition hasattr (o : pyobject) (k : string) : bool :=
  match getattr o k with Some _ => true | None => false end.

Definition setattr (o : pyobject) (k : string) (v : pyval) : pyobject :=
  {| ob_mro := ob_mro o;
     ob_class_attrs := ob_class_attrs o;
     ob_dict := <[k := v]> (ob_dict o) |}.

(** [isinstance(o, cls)] *)
Definition isinstance (o : pyobject) (cls : string) : bool :=
  bool_decide (cls ∈ ob_mro o).

(** ** [InlineBaseFormAdmin] *)

Definition _defaults : list string :=
  ["form_base_class"; "form_columns"; "form_excluded_columns"; "form_args";
   "form_extra_fields"].

(** [for k in self._defaults: if not hasattr(self, k): setattr(self, k, None)] *)
Definition init_defaults (o : pyobject) : pyobject :=
  foldl (λ o k, if hasattr o k then o else setattr o k VNone) o _defaults.

(** [for k, v in iteritems(kwargs): setattr(self, k, v)] *)
Definition apply_kwargs (o : pyobject) (kwargs : gmap string pyval)
  : pyobject :=
  map_fold (λ k v o, setattr o k v) o kwargs.

(** [InlineBaseFormAdmin.__init__(self, **kwargs)]; [self] is the location of
    the instance, which the rule set keeps a reference to. *)
Definition InlineBaseFormAdmin_init (self : loc) (o : pyobject)
    (kwargs : gmap string pyval) : pyobject :=
  let o := init_defaults o in
  let o := apply_kwargs o kwargs in
  let form_rules := getattr_default o "form_rules" VNone in
  setattr o "_form_rules"
    (if truthy form_rules then VRuleSet self form_rules else VNone).

(** [InlineFormAdmin.__init__(self, model, **kwargs)] *)
Definition InlineFormAdmin_init (self : loc) (o : pyobject) (model : pyval)
    (kwargs : gmap string pyval) : pyobject :=
  let o := setattr o "model" model in
  InlineBaseFormAdmin_init self o kwargs.

Definition InlineFormAdmin_mro : list string :=
  ["InlineFormAdmin"; "InlineBaseFormAdmin"; "object"].

(** A new instance of [InlineFormAdmin], before [__init__] has run: the
    class defines no data attribute besides [_defaults]. *)
Definition InlineFormAdmin_instance : pyobject :=
  {| ob_mro := InlineFormAdmin_mro; ob_class_attrs := ∅; ob_dict := ∅ |}.

(** The call [InlineFormAdmin(model, **kwargs)]: a keyword that names one of
    the constructor's own parameters is rejected when the arguments are
    bound; otherwise a new instance is allocated and initialised. *)
Definition InlineFormAdmin_new (model : pyval) (kwargs : gmap string pyval)
    (h : heap) : heap * (exn + pyval) :=
  if decide (is_Some (kwargs !! "model") ∨ is_Some (kwargs !! "self"))
  then (h, inl (TypeError "__init__() got multiple values for argument"))
  else
    let l := fresh (dom h) in
    (<[l := InlineFormAdmin_init l InlineFormAdmin_instance model kwargs]> h,
     inr (VRef l)).

(** ** The hook [on_model_change] and its compatibility helper *)

(** A warning: the format string and the value it was applied to. *)
Record warning := Warn {
  warn_format : string;
  warn_arg : pyval
}.

(** [fmt % v] for a format with one [%s]: a tuple on the right is the
    argument list itself. *)
Definition percent (fmt : string) (v : pyval) : exn + warning :=
  match v with
  | VTuple [x] => inr (Warn fmt x)
  | VTuple _ => inl (TypeError "wrong number of arguments for format string")
  | _ => inr (Warn fmt v)
  end.

Definition on_model_change_msg : string :=
  "%s.on_model_change() now accepts third parameter is_created. Please update your code".

Section Hooks.

(** What a hook can change: some state of the application. *)
Context {U : Type}.

(** A method as the descriptor's class defines it: the number of
    parameters after [self], and its body. *)
Record method := {
  params : nat;
  body : list pyval → U → U * option exn
}.

(** The issued warnings and the application state. *)
Record world := {
  warnings : list warning;
  user : U
}.

(** Calling a method with positional arguments: a wrong count raises
    [TypeError] before the body runs. *)
Definition call (m : method) (args : list pyval) (w : world)
  : world * (exn + pyval) :=
  if decide (length args = params m) then
    let '(u, r) := body m args (user w) in
    ({| warnings := warnings w; user := u |},
     match r with Some e => inl e | None => inr VNone end)
  else (w, inl (TypeError "wrong number of positional arguments")).

(** [warnings.warn(msg)] *)
Definition warn (msg : warning) (w : world) : world :=
  {| warnings := warnings w ++ [msg]; user := user w |}.

(** The default [InlineBaseFormAdmin.on_model_change]: [pass]. *)
Definition on_model_change_default : method :=
  {| params := 3; body := λ _ u, (u, None) |}.

(** [InlineBaseFormAdmin._on_model_change(self, form, model, is_created)];
    [on_model_change] is the method [self.on_model_change] resolves to. *)
Definition _on_model_change (self : pyobject) (on_model_change : method)
    (form model is_created : pyval) (w : world) : world * (exn + pyval) :=
  match call on_model_change [form; model; is_created] w with
  | (w1, inl (TypeError _)) =>
      match getattr self "model" with
      | None => (w1, inl (AttributeError "model"))
      | Some m =>
          match percent on_model_change_msg m with
          | inl e => (w1, inl e)
          | inr msg =>
              let w2 := warn msg w1 in
              match call on_model_change [form; model] w2 with
              | (w3, inl e) => (w3, inl e)
              | (w3, inr _) => (w3, inr VNone)
              end
          end
      end
  | (w1, inl e) => (w1, inl e)
  | (w1, inr _) => (w1, inr VNone)
  end.

End Hooks.

Arguments method : clear implicits.
Arguments world : clear implicits.

(** ** [InlineModelConverterBase] *)

(** The owning view, as far as this module reads it: [column_labels] is a
    dictionary, or [None] (also when the view has no such attribute). *)
Record view := {
  column_labels : option (gmap string pyval)
}.

Record InlineModelConverterBase := {
  self_view : view
}.

(** The class attribute [form_admin_class = InlineFormAdmin]. *)
Definition form_admin_class : string := "InlineFormAdmin".

(** [InlineModelConverterBase.get_label(self, info, name)] *)
Definition get_label (self : InlineModelConverterBase) (info : pyobject)
    (name : string) : pyval :=
  let form_name := getattr_default info "form_label" VNone in
  if truthy form_name then form_name
  else
    match column_labels (self_view self) with
    | Some labels =>
        if negb (Nat.eqb (size labels) 0) then
          match labels !! name with
          | Some label => label
          | None => VNone
          end
        else VNone
    | None => VNone
    end.

(** [InlineModelConverterBase.get_info(self, p)] *)
Definition get_info (self : InlineModelConverterBase) (p : pyval) (h : heap)
  : heap * (exn + pyval) :=
  match p with
  | VTuple xs =>
      match xs !! 0%nat with
      | None => (h, inl (IndexError "tuple index out of range"))
      | Some model =>
          match xs !! 1%nat with
          | None => (h, inl (IndexError "tuple index out of range"))
          | Some (VDict kwargs) => InlineFormAdmin_new model kwargs h
          | Some _ => (h, inl (TypeError "argument after ** must be a mapping"))
          end
      end
  | VRef l =>
      match h !! l with
      | Some o => if isinstance o form_admin_class then (h, inr p)
                  else (h, inr VNone)
      | None => (h, inr VNone)
      end
  | _ => (h, inr VNone)
  end.

End Inline.

(** * Reference definitions the properties are stated against

    These follow the wording of the specification (candidates, two passes,
    last claimant) or name the result of a loop; none of them is part of
    the embedded code. *)

Module Reference.

Import Converter.

(** The candidate types of a lookup: the whole method-resolution order
    with ancestor search, the exact type without. *)
Definition candidates (ancestor_search : bool) (col : column) : list pytype :=
  if ancestor_search then getmro col else [column_type col].

(** The converter of the first candidate whose key is registered. *)
Definition first_registered (key : pytype → string)
    (convs : gmap string member) (cands : list pytype) : option member :=
  match list_find (λ t, is_Some (convs !! key t)) cands with
  | Some (_, t) => convs !! key t
  | None => None
  end.

(** The qualified identifier of a type as the specification writes it:
    the defining module, a dot, the type name. *)
Definition qualified_identifier (t : pytype) : string :=
  String.append (__module__ t) (String.append "." (__name__ t)).

(** Two passes over the candidates: qualified identifiers, then bare names. *)
Definition two_pass_lookup (convs : gmap string member)
    (cands : list pytype) : option member :=
  match first_registered qualified_identifier convs cands with
  | Some conv => Some conv
  | None => first_registered __name__ convs cands
  end.

(** The member is tagged and its tag set holds the identifier. *)
Definition claims (id : string) (obj : member) : bool :=
  match _converter_for obj with
  | Some ids => bool_decide (id ∈ ids)
  | None => false
  end.

Definition tagged (obj : member) : bool :=
  match _converter_for obj with Some _ => true | None => false end.

(** The last member in scan order that claims the identifier. *)
Definition last_claimant (id : string) (objs : list member) : option member :=
  last (filter (λ obj, claims id obj = true) objs).

(** The store after the list-form loop has visited the given field
    objects. *)
Definition widgets_set (w : ListForm.widget) (ls : list ListForm.loc)
    (h : ListForm.heap) : ListForm.heap :=
  foldl (λ h l, alter (ListForm.set_kwarg "widget" (ListForm.KWidget w)) l h)
        h ls.

(** The namespace entries the list-form loop attaches for the given
    fields. *)
Definition as_attrs (fs : list (string * ListForm.loc))
  : list (string * ListForm.attr) :=
  (λ kv, (kv.1, ListForm.AField kv.2)) <$> fs.

End Reference.

(** * Sample inputs *)

Module Samples.

Import Converter.

Definition sample_T : pytype := PyType "app.models" "Money".
Definition sample_A : pytype := PyType "sqlalchemy.sql.sqltypes" "Numeric".
Definition sample_B : pytype := PyType "sqlalchemy.sql.type_api" "TypeEngine".
Definition sample_column : column := Column sample_T [sample_A; sample_B].
Definition sample_conv : member :=
  converts ["TypeEngine"] (Member "conv_generic" None).
Definition sample_registry (mro : bool) : ModelConverterBase :=
  init [("conv_generic", sample_conv); ("use_mro", Member "use_mro" None)]
       None mro.

Definition unknown_column : column :=
  Column (PyType "app.models" "Geometry") [PyType "builtins" "object"].

Definition conv_text : member :=
  converts ["String"; "Unicode"] (Member "conv_String" None).
Definition conv_text_late : member :=
  converts ["Unicode"] (Member "conv_Unicode" None).
Definition scanned_members : list (string * member) :=
  [("conv_String", conv_text); ("conv_Unicode", conv_text_late);
   ("get_form", Member "get_form" None)].
Definition seeded : option (gmap string member) :=
  Some {[ "String" := Member "seeded" None; "Date" := Member "seeded" None ]}.

(** A registry where the exact type has only a bare-name converter and
    its parent a qualified one. *)
Definition conv_money : member :=
  converts ["Money"] (Member "conv_money" None).
Definition conv_numeric : member :=
  converts ["sqlalchemy.sql.sqltypes.Numeric"] (Member "conv_numeric" None).
Definition priority_registry (mro : bool) : ModelConverterBase :=
  init [("conv_money", conv_money); ("conv_numeric", conv_numeric)] None mro.

(** A form class with three fields and one attribute that is no field. *)
Definition text_field (label : string) : ListForm.UnboundField :=
  {| ListForm.field_class_of := ListForm.Field "StringField";
     ListForm.args := [label];
     ListForm.kwargs := {[ "description" := ListForm.KValue label ]} |}.

Definition sample_heap : gmap positive ListForm.UnboundField :=
  {[ 1%positive := text_field "A"; 2%positive := text_field "B";
     3%positive := text_field "C" ]}.

Definition sample_form : ListForm.form_class :=
  {| ListForm.class_name := "UserForm";
     ListForm.bases := ["BaseForm"];
     ListForm.__dict__ :=
       [("__module__", ListForm.AOther "flask_admin.form");
        ("a", ListForm.AField 1%positive);
        ("b", ListForm.AField 2%positive);
        ("c", ListForm.AField 3%positive)] |}.

(** The same form with a field under the reserved name. *)
Definition clashing_form : ListForm.form_class :=
  {| ListForm.class_name := "UserForm";
     ListForm.bases := ["BaseForm"];
     ListForm.__dict__ :=
       [("a", ListForm.AField 1%positive);
        ("list_form_pk", ListForm.AField 2%positive);
        ("c", ListForm.AField 3%positive)] |}.

(** A view with one label, and descriptors with and without [form_label]. *)
Definition labelled_view : Inline.view :=
  {| Inline.column_labels :=
       Some {[ "email" := Inline.VStr "E-mail" ]} |}.

Definition inline_converter : Inline.InlineModelConverterBase :=
  {| Inline.self_view := labelled_view |}.

Definition info_with (kwargs : gmap string Inline.pyval) : Inline.pyobject :=
  Inline.InlineFormAdmin_init 1%positive Inline.InlineFormAdmin_instance
    (Inline.VClass "Email") kwargs.

Definition plain_info : Inline.pyobject := info_with ∅.
Definition custom_info : Inline.pyobject :=
  info_with {[ "form_label" := Inline.VStr "Custom" ]}.
Definition blank_info : Inline.pyobject :=
  info_with {[ "form_label" := Inline.VStr "" ]}.

(** An instance of a user's subclass of [InlineBaseFormAdmin], as in the
    class's docstring: it sets [form_columns] and nothing called [model]. *)
Definition MyInlineForm_instance : Inline.pyobject :=
  {| Inline.ob_mro := ["MyInlineForm"; "InlineBaseFormAdmin"; "object"];
     Inline.ob_class_attrs :=
       {[ "form_columns" :=
            Inline.VTuple [Inline.VStr "name"; Inline.VStr "email"] ]};
     Inline.ob_dict := ∅ |}.

Definition base_descriptor : Inline.pyobject :=
  Inline.InlineBaseFormAdmin_init 1%positive MyInlineForm_instance ∅.

(** A source class where a plain attribute, not a field, has the reserved
    name. *)
Definition shadowing_form : ListForm.form_class :=
  {| ListForm.class_name := "UserForm";
     ListForm.bases := ["BaseForm"];
     ListForm.__dict__ :=
       [("list_form_pk", ListForm.AOther "5");
        ("a", ListForm.AField 1%positive)] |}.

(** An override written for the old signature,
    [def on_model_change(self, form, model)]; it counts its calls. *)
Definition legacy_hook : Inline.method nat :=
  {| Inline.params := 2; Inline.body := λ _ calls, (S calls, None) |}.

(** Overrides with the current signature: one whose body fails with a
    [TypeError] of its own, one that fails otherwise. *)
Definition confused_hook : Inline.method nat :=
  {| Inline.params := 3;
     Inline.body := λ _ calls, (S calls, Some (TypeError "unsupported operand")) |}.

Definition refusing_hook : Inline.method nat :=
  {| Inline.params := 3;
     Inline.body := λ _ calls, (S calls, Some (Exception_ "read only")) |}.

Definition quiet_world : Inline.world nat :=
  {| Inline.warnings := []; Inline.user := 0 |}.

End Samples.

(** * Properties *)

(** Closed decidable side conditions, settled by evaluation. *)
Ltac by_evaluation :=
  match goal with
  | |- ?P => apply (@bool_decide_unpack P _); vm_compute; exact I
  end.

(** Membership in a literal namespace, case by case. *)
Ltac each_entry H tac :=
  simpl in H;
  repeat (apply elem_of_cons in H as [H|H]; [simplify_eq; tac|]);
  try (by apply elem_of_nil in H).

(** ** Converter resolver *)

Section Resolver.

Import Converter Reference Samples.

Lemma search_by_module_name_first convs types :
  search_by_module_name convs types = first_registered type_string convs types.
Proof.
  unfold first_registered.
  induction types as [|t ts IH]; simpl; [done|].
  destruct (convs !! type_string t) as [c|] eqn:E.
  - by rewrite decide_True by eauto.
  - rewrite decide_False by apply is_Some_None.
    rewrite IH.
    destruct (list_find _ ts) as [[i t']|]; simpl; done.
Qed.

Lemma search_by_name_first convs types :
  search_by_name convs types = first_registered __name__ convs types.
Proof.
  unfold first_registered.
  induction types as [|t ts IH]; simpl; [done|].
  destruct (convs !! __name__ t) as [c|] eqn:E.
  - by rewrite decide_True by eauto.
  - rewrite decide_False by apply is_Some_None.
    rewrite IH.
    destruct (list_find _ ts) as [[i t']|]; simpl; done.
Qed.

Lemma search_by_module_name_None convs types :
  (∀ t, t ∈ types → convs !! type_string t = None) →
  search_by_module_name convs types = None.
Proof.
  induction types as [|t ts IH]; intros H; simpl; [done|].
  rewrite (H t) by left. apply IH. intros t' Ht'. apply H. by right.
Qed.

Lemma search_by_name_None convs types :
  (∀ t, t ∈ types → convs !! __name__ t = None) →
  search_by_name convs types = None.
Proof.
  induction types as [|t ts IH]; intros H; simpl; [done|].
  rewrite (H t) by left. apply IH. intros t' Ht'. apply H. by right.
Qed.

(** The key of the first pass is the qualified identifier. *)
Lemma type_string_qualified t : type_string t = qualified_identifier t.
Proof. reflexivity. Qed.

Lemma search_by_module_name_qualified convs types :
  search_by_module_name convs types
  = first_registered qualified_identifier convs types.
Proof. apply search_by_module_name_first. Qed.

(** C1: [get_converter] makes two passes over the candidate list, the first
    by the qualified identifier [<defining_module>.<type_name>] and the
    second by bare type name, and returns the first registered converter;
    the candidates are the whole ancestor chain when [use_mro] is set and
    the exact type alone otherwise.  With chain [T; A; B] and only the bare
    name of [B] registered, the lookup returns the converter of [B] with
    ancestor search and nothing without it. *)
Theorem get_converter_two_passes :
  (∀ self col,
     get_converter self col
     = two_pass_lookup (converters self)
         (if use_mro self then column_type col :: ancestors col
          else [column_type col]))
  ∧ (∀ self col T A B conv,
       column_type col = T → ancestors col = [A; B] →
       converters self !! (__module__ T +:+ "." +:+ __name__ T) = None →
       converters self !! (__module__ A +:+ "." +:+ __name__ A) = None →
       converters self !! (__module__ B +:+ "." +:+ __name__ B) = None →
       converters self !! __name__ T = None →
       converters self !! __name__ A = None →
       converters self !! __name__ B = Some conv →
       (use_mro self = true → get_converter self col = Some conv)
       ∧ (use_mro self = false → get_converter self col = None)).
Proof.
  split.
  - intros self col. unfold get_converter, two_pass_lookup, getmro.
    by rewrite search_by_module_name_qualified, search_by_name_first.
  - intros self col T A B conv HT Hanc HqT HqA HqB HnT HnA HnB.
    unfold get_converter, getmro. rewrite HT, Hanc.
    split; intros ->; cbn [search_by_module_name search_by_name];
      unfold type_string.
    + by rewrite HqT, HqA, HqB, HnT, HnA, HnB.
    + by rewrite HqT, HnT.
Qed.

Lemma get_converter_two_passes_witness :
  get_converter (sample_registry true) sample_column = Some sample_conv
  ∧ get_converter (sample_registry false) sample_column = None
  ∧ converters (priority_registry true) !! "sqlalchemy.sql.sqltypes.Numeric"
    = Some conv_numeric
  ∧ converters (priority_registry true) !! "Money" = Some conv_money
  ∧ get_converter (priority_registry true) sample_column = Some conv_numeric
  ∧ get_converter (priority_registry false) sample_column = Some conv_money.
Proof.
  split; [|split; [|split; [|split; [|split]]]].
  - apply (proj2 get_converter_two_passes (sample_registry true) sample_column
             sample_T sample_A sample_B sample_conv);
      vm_compute; reflexivity.
  - apply (proj2 get_converter_two_passes (sample_registry false) sample_column
             sample_T sample_A sample_B sample_conv);
      vm_compute; reflexivity.
  - vm_compute. reflexivity.
  - vm_compute. reflexivity.
  - rewrite (proj1 get_converter_two_passes). vm_compute. reflexivity.
  - rewrite (proj1 get_converter_two_passes). vm_compute. reflexivity.
Defined.

(** C8: when neither the qualified identifier nor the bare name of any
    candidate type is registered, [get_converter] returns [None]; the
    function is total, so a missing converter never raises. *)
Theorem get_converter_absent self col :
  (∀ t, t ∈ candidates (use_mro self) col →
        converters self !! type_string t = None
        ∧ converters self !! __name__ t = None) →
  get_converter self col = None.
Proof.
  intros H. unfold get_converter. fold (candidates (use_mro self) col).
  rewrite search_by_module_name_None by (intros t Ht; by apply H).
  apply search_by_name_None. intros t Ht. by apply H.
Qed.

Lemma get_converter_absent_witness :
  get_converter (sample_registry true) unknown_column = None
  ∧ get_converter (sample_registry false) unknown_column = None.
Proof.
  split.
  - apply (get_converter_absent (sample_registry true) unknown_column).
    intros t Ht. simpl in Ht. unfold getmro in Ht. simpl in Ht.
    apply elem_of_cons in Ht as [->|Ht]; [by vm_compute|].
    apply list_elem_of_singleton in Ht as ->. by vm_compute.
  - apply (get_converter_absent (sample_registry false) unknown_column).
    intros t Ht. simpl in Ht.
    apply list_elem_of_singleton in Ht as ->. by vm_compute.
Defined.

End Resolver.

(** ** Converter registry *)

Section Registry.

Import Converter Reference Samples.

Lemma register_set_lookup (obj : member) (ids : gset string)
    (convs : gmap string member) (id : string) :
  set_fold (λ classname acc, <[classname := obj]> acc) convs ids !! id
  = if decide (id ∈ ids) then Some obj else convs !! id.
Proof.
  revert ids.
  apply (set_fold_ind_L
           (λ r (X : gset string),
              r !! id = if decide (id ∈ X) then Some obj else convs !! id)).
  - rewrite decide_False by set_solver. done.
  - intros x X r Hx IH. destruct (decide (x = id)) as [->|Hne].
    + rewrite lookup_insert_eq. rewrite decide_True by set_solver. done.
    + rewrite lookup_insert_ne by done. rewrite IH.
      destruct (decide (id ∈ X)) as [HX|HX],
               (decide (id ∈ {[x]} ∪ X)) as [HY|HY]; [done| | |done].
      * exfalso. apply HY. apply elem_of_union. by right.
      * exfalso. apply elem_of_union in HY as [HY|HY]; [|done].
        apply elem_of_singleton in HY. congruence.
Qed.

Lemma register_member_lookup convs obj id :
  register_member convs obj !! id
  = if claims id obj then Some obj else convs !! id.
Proof.
  unfold register_member, claims. destruct (_converter_for obj) as [ids|]; [|done].
  rewrite register_set_lookup. destruct (decide (id ∈ ids)).
  - by rewrite bool_decide_eq_true_2.
  - by rewrite bool_decide_eq_false_2.
Qed.

Lemma register_member_untagged convs obj :
  tagged obj = false → register_member convs obj = convs.
Proof.
  unfold register_member, tagged. by destruct (_converter_for obj).
Qed.

Lemma scan_lookup objs convs id :
  foldl register_member convs objs !! id
  = match last_claimant id objs with
    | Some obj => Some obj
    | None => convs !! id
    end.
Proof.
  unfold last_claimant. revert convs.
  induction objs as [|o os IH]; intros convs; simpl; [done|].
  rewrite IH, register_member_lookup.
  rewrite filter_cons. destruct (claims id o) eqn:Hc.
  - rewrite decide_True by done.
    rewrite last_cons. by destruct (last _).
  - rewrite decide_False by done. done.
Qed.

Lemma last_claimant_claims id objs obj :
  last_claimant id objs = Some obj → claims id obj = true ∧ obj ∈ objs.
Proof.
  unfold last_claimant. intros H.
  assert (obj ∈ filter (λ o, claims id o = true) objs) as Hin.
  { apply last_Some in H as [l' ->]. set_solver. }
  by apply list_elem_of_filter in Hin.
Qed.

Lemma last_claimant_is_Some id objs obj :
  obj ∈ objs → claims id obj = true → is_Some (last_claimant id objs).
Proof.
  unfold last_claimant. intros Hin Hc.
  assert (obj ∈ filter (λ o, claims id o = true) objs) as Hf
    by (by apply list_elem_of_filter).
  destruct (filter _ objs) as [|x xs] eqn:E; [by apply elem_of_nil in Hf|].
  destruct (last (x :: xs)) eqn:El; [eauto|].
  by apply last_None in El.
Qed.

Lemma last_claimant_app id pre obj post :
  claims id obj = true →
  (∀ o, o ∈ post → claims id o = false) →
  last_claimant id (pre ++ obj :: post) = Some obj.
Proof.
  unfold last_claimant. intros Hc Hpost.
  rewrite filter_app, filter_cons, decide_True by done.
  assert (filter (λ o, claims id o = true) post = []) as ->.
  { induction post as [|p ps IH]; [done|].
    rewrite filter_cons, decide_False.
    - apply IH. intros o Ho. apply Hpost. by right.
    - rewrite (Hpost p) by left. done. }
  by rewrite last_snoc.
Qed.

Lemma scan_skips_untagged objs convs :
  foldl register_member convs objs
  = foldl register_member convs (filter (λ o, tagged o = true) objs).
Proof.
  revert convs. induction objs as [|o os IH]; intros convs; simpl; [done|].
  rewrite filter_cons. destruct (tagged o) eqn:Ht.
  - rewrite decide_True by done. simpl. apply IH.
  - rewrite decide_False by done. rewrite register_member_untagged by done.
    apply IH.
Qed.

(** C4: constructing the registry inserts every tagged member under each
    identifier of its tag set.  The entry of an identifier is the last
    member in scan order that claims it, whatever the seed mapping held
    there; identifiers that no member claims keep the seed's entry; untagged
    members contribute nothing, and the construction is total. *)
Theorem init_registers_tagged_members :
  (∀ members seed mro id,
     converters (init members seed mro) !! id
     = match last_claimant id (members.*2) with
       | Some obj => Some obj
       | None => seed_mapping seed !! id
       end)
  ∧ (∀ members seed mro name obj ids id,
       (name, obj) ∈ members → _converter_for obj = Some ids → id ∈ ids →
       ∃ obj', converters (init members seed mro) !! id = Some obj'
               ∧ claims id obj' = true ∧ obj' ∈ members.*2)
  ∧ (∀ pre name obj post seed mro ids id,
       _converter_for obj = Some ids → id ∈ ids →
       (∀ o, o ∈ post.*2 → claims id o = false) →
       converters (init (pre ++ (name, obj) :: post) seed mro) !! id = Some obj)
  ∧ (∀ members seed mro,
       converters (init members seed mro)
       = foldl register_member (seed_mapping seed)
           (filter (λ o, tagged o = true) (members.*2))).
Proof.
  split; [|split; [|split]].
  - intros. apply scan_lookup.
  - intros members seed mro name obj ids id Hin Htag Hid.
    assert (claims id obj = true) as Hc.
    { unfold claims. rewrite Htag. by apply bool_decide_eq_true_2. }
    assert (obj ∈ members.*2) as Hobj.
    { apply list_elem_of_fmap. by exists (name, obj). }
    destruct (last_claimant_is_Some id _ _ Hobj Hc) as [obj' Hl].
    exists obj'. simpl. rewrite scan_lookup, Hl.
    apply last_claimant_claims in Hl as [??]. done.
  - intros pre name obj post seed mro ids id Htag Hid Hpost. simpl.
    rewrite scan_lookup, fmap_app, fmap_cons. simpl.
    rewrite last_claimant_app; [done| |done].
    unfold claims. rewrite Htag. by apply bool_decide_eq_true_2.
  - intros. simpl. apply scan_skips_untagged.
Qed.

Lemma init_registers_tagged_members_witness :
  (∃ obj', converters (init scanned_members seeded true) !! "Unicode" = Some obj'
           ∧ claims "Unicode" obj' = true ∧ obj' ∈ scanned_members.*2)
  ∧ converters (init scanned_members seeded true) !! "String" = Some conv_text.
Proof.
  split.
  - apply (proj1 (proj2 init_registers_tagged_members)
             scanned_members seeded true "conv_String" conv_text
             {[ "String"; "Unicode" ]} "Unicode").
    + apply list_elem_of_here.
    + vm_compute. reflexivity.
    + set_solver.
  - apply (proj1 (proj2 (proj2 init_registers_tagged_members))
             [] "conv_String" conv_text
             [("conv_Unicode", conv_text_late);
              ("get_form", Member "get_form" None)]
             seeded true {[ "String"; "Unicode" ]} "String").
    + vm_compute. reflexivity.
    + set_solver.
    + intros o Ho. simpl in Ho.
      apply elem_of_cons in Ho as [->|Ho]; [by vm_compute|].
      apply list_elem_of_singleton in Ho as ->. by vm_compute.
Defined.

End Registry.

(** ** The editable-list form *)

Section EditableListForm.

Import ListForm Reference Samples.

Lemma set_kwarg_idemp key v f : set_kwarg key v (set_kwarg key v f) = set_kwarg key v f.
Proof. unfold set_kwarg. simpl. by rewrite insert_insert_eq. Qed.

Lemma widgets_set_lookup w ls h l :
  widgets_set w ls h !! l
  = if decide (l ∈ ls) then set_kwarg "widget" (KWidget w) <$> h !! l
    else h !! l.
Proof.
  unfold widgets_set. revert h.
  induction ls as [|l0 ls IH]; intros h; simpl.
  - done.
  - rewrite IH. destruct (decide (l0 = l)) as [->|Hne].
    + rewrite lookup_alter_eq, (decide_True (P := l ∈ l :: ls)) by left.
      destruct (decide (l ∈ ls)); [|done].
      destruct (h !! l); simpl; [|done]. by rewrite set_kwarg_idemp.
    + rewrite lookup_alter_ne by done.
      destruct (decide (l ∈ ls)) as [Hin|Hnin].
      * by rewrite decide_True by (by right).
      * rewrite decide_False; [done|].
        intros [?|?]%elem_of_cons; congruence.
Qed.

Lemma fields_elem_of d name l :
  (name, l) ∈ fields d ↔ (name, AField l) ∈ d.
Proof.
  unfold fields. rewrite list_elem_of_omap. split.
  - intros [[k v] [Hin Hv]]. simpl in Hv. destruct v; simplify_eq. done.
  - intros Hin. exists (name, AField l). done.
Qed.

Lemma field_names_elem_of d name :
  name ∈ field_names d ↔ ∃ l, (name, AField l) ∈ d.
Proof.
  unfold field_names. rewrite list_elem_of_fmap. split.
  - intros [[k l] [-> Hin]]. exists l. by apply fields_elem_of.
  - intros [l Hin]. exists (name, l). split; [done|]. by apply fields_elem_of.
Qed.

Lemma field_names_sublist d : field_names d `sublist_of` d.*1.
Proof.
  unfold field_names, fields. induction d as [|[k v] d IH]; simpl; [done|].
  destruct v; simpl.
  - by apply sublist_skip.
  - by apply sublist_cons.
Qed.

Lemma dict_set_fresh d name v :
  name ∉ d.*1 → dict_set d name v = d ++ [(name, v)].
Proof.
  induction d as [|[k v0] d IH]; simpl; intros Hn; [done|].
  apply not_elem_of_cons in Hn as [Hne Hn].
  rewrite decide_False by done. by rewrite IH.
Qed.

Lemma dict_get_elem_of d name v :
  NoDup d.*1 → (name, v) ∈ d → dict_get d name = Some v.
Proof.
  induction d as [|[k v0] d IH]; simpl; intros Hnd Hin.
  - by apply elem_of_nil in Hin.
  - apply NoDup_cons in Hnd as [Hk Hnd].
    apply elem_of_cons in Hin as [Heq|Hin].
    + simplify_eq. by rewrite decide_True.
    + rewrite decide_False; [by apply IH|].
      intros ->. apply Hk. apply list_elem_of_fmap. by exists (name, v).
Qed.

(** The loop on a namespace without a field named [list_form_pk]: it
    returns, every field object has its widget set, and every field is
    appended to the derived class under its own name. *)
Lemma copy_fields_returns w items ListForm h :
  "list_form_pk" ∉ field_names items →
  NoDup ((__dict__ ListForm).*1 ++ field_names items) →
  copy_fields w items ListForm h
  = (widgets_set w (fields items).*2 h,
     inr {| class_name := class_name ListForm;
            bases := bases ListForm;
            __dict__ := __dict__ ListForm ++ as_attrs (fields items) |}).
Proof.
  revert ListForm h.
  induction items as [|[name obj] items IH]; intros ListForm h Hpk Hnd.
  - simpl. unfold as_attrs. simpl. rewrite app_nil_r. by destruct ListForm.
  - destruct obj as [l|repr]; simpl.
    + unfold field_names in Hpk, Hnd. simpl in Hpk, Hnd.
      apply not_elem_of_cons in Hpk as [Hne Hpk].
      rewrite decide_False by done.
      assert (name ∉ (__dict__ ListForm).*1) as Hfresh.
      { apply NoDup_app in Hnd as (_ & Hdisj & _).
        intros Hin. apply (Hdisj _ Hin). by left. }
      rewrite IH.
      * simpl. rewrite dict_set_fresh by done.
        unfold as_attrs. simpl. by rewrite <- app_assoc.
      * done.
      * simpl. rewrite dict_set_fresh by done.
        rewrite fmap_app. simpl. rewrite <- app_assoc. simpl. done.
    + by rewrite IH.
Qed.

(** The loop on a namespace that holds a field named [list_form_pk]. *)
Lemma copy_fields_raises w items ListForm h l :
  ("list_form_pk", AField l) ∈ items →
  ∃ h', copy_fields w items ListForm h
        = (h', inl (Exception_ "Form already has a list_form_pk column.")).
Proof.
  revert ListForm h.
  induction items as [|[name obj] items IH]; intros ListForm h Hin.
  - by apply elem_of_nil in Hin.
  - destruct obj as [l0|repr]; simpl.
    + destruct (decide (name = "list_form_pk")) as [->|Hne]; [eauto|].
      apply IH. apply elem_of_cons in Hin as [Heq|Hin]; [|done].
      simplify_eq.
    + apply IH. apply elem_of_cons in Hin as [Heq|Hin]; [|done].
      simplify_eq.
Qed.

Lemma fields_as_attrs fs : fields (as_attrs fs) = fs.
Proof.
  induction fs as [|[k l] fs IH]; [done|].
  unfold fields, as_attrs in *. csimpl. by rewrite IH.
Qed.

Lemma as_attrs_names fs : (as_attrs fs).*1 = fs.*1.
Proof.
  induction fs as [|[k l] fs IH]; [done|].
  unfold as_attrs in *. csimpl. by rewrite IH.
Qed.

Lemma create_editable_list_form_returns base F w h :
  NoDup (__dict__ F).*1 →
  "list_form_pk" ∉ field_names (__dict__ F) →
  create_editable_list_form base F w h
  = (widgets_set (widget_or_default w) (fields (__dict__ F)).*2
       (<[fresh (dom h) := hidden_required]> h),
     inr {| class_name := "ListForm";
            bases := [base];
            __dict__ := ("list_form_pk", AField (fresh (dom h)))
                        :: as_attrs (fields (__dict__ F)) |}).
Proof.
  intros Hnd Hpk. unfold create_editable_list_form.
  rewrite copy_fields_returns; [done|done|].
  simpl. apply NoDup_cons. split; [done|].
  eapply sublist_NoDup; [done|apply field_names_sublist].
Qed.

Lemma allocated_not_fresh (h : heap) d name l :
  fields_allocated d h → (name, AField l) ∈ d → l ≠ fresh (dom h).
Proof.
  intros Hall Hin ->. apply (is_fresh (dom h)).
  apply elem_of_dom. by eapply Hall.
Qed.

(** C2: a source form class that declares a field named [list_form_pk]
    makes [create_editable_list_form] raise; no derived class is returned. *)
Theorem create_editable_list_form_reserved_name base F w h l :
  ("list_form_pk", AField l) ∈ __dict__ F →
  ∃ h', create_editable_list_form base F w h
        = (h', inl (Exception_ "Form already has a list_form_pk column.")).
Proof.
  intros Hin. unfold create_editable_list_form.
  by eapply copy_fields_raises.
Qed.

Lemma create_editable_list_form_reserved_name_witness :
  ∃ h', create_editable_list_form "BaseForm" clashing_form None sample_heap
        = (h', inl (Exception_ "Form already has a list_form_pk column.")).
Proof.
  apply (create_editable_list_form_reserved_name
           "BaseForm" clashing_form None sample_heap 2%positive).
  simpl. apply list_elem_of_further, list_elem_of_here.
Defined.

(** C3: for a source form class whose fields are not named
    [list_form_pk], [create_editable_list_form] raises nothing and returns
    a class extending the base whose namespace holds exactly the source's
    fields and [list_form_pk]; the latter is a new [HiddenField] whose
    validators are [InputRequired], and each copied field is attached
    under its own name, the same object, with its [widget] keyword set to
    the given widget, [XEditableWidget] when none is given, and the rest of
    it as before. *)
Theorem create_editable_list_form_fields base F w h :
  NoDup (__dict__ F).*1 →
  fields_allocated (__dict__ F) h →
  "list_form_pk" ∉ field_names (__dict__ F) →
  ∃ ListForm h' pk fpk,
    create_editable_list_form base F w h = (h', inr ListForm)
    ∧ bases ListForm = [base]
    ∧ __dict__ ListForm
      = ("list_form_pk", AField pk) :: as_attrs (fields (__dict__ F))
    ∧ NoDup (__dict__ ListForm).*1
    ∧ (∀ name, name ∈ field_names (__dict__ ListForm)
               ↔ name = "list_form_pk" ∨ name ∈ field_names (__dict__ F))
    ∧ (∀ name a, (name, a) ∈ __dict__ ListForm
                 ↔ (name = "list_form_pk" ∧ a = AField pk)
                   ∨ ∃ l, a = AField l ∧ (name, AField l) ∈ __dict__ F)
    ∧ h !! pk = None
    ∧ h' !! pk = Some fpk
    ∧ field_class_of fpk = HiddenField
    ∧ args fpk = []
    ∧ kwargs fpk = {[ "validators" := KValidators [InputRequired] ]}
    ∧ (∀ name l, (name, AField l) ∈ __dict__ F →
         dict_get (__dict__ ListForm) name = Some (AField l)
         ∧ ∃ f f', h !! l = Some f ∧ h' !! l = Some f'
                   ∧ kwargs f' !! "widget"
                     = Some (KWidget match w with
                                     | Some given => given
                                     | None => XEditableWidget
                                     end)
                   ∧ (∀ key, key ≠ "widget" →
                             kwargs f' !! key = kwargs f !! key)
                   ∧ field_class_of f' = field_class_of f
                   ∧ args f' = args f).
Proof.
  intros Hnd Hall Hpk.
  assert (NoDup (("list_form_pk", AField (fresh (dom h)))
                 :: as_attrs (fields (__dict__ F))).*1) as Hnd'.
  { simpl. rewrite as_attrs_names. apply NoDup_cons. split; [done|].
    eapply sublist_NoDup; [done|apply field_names_sublist]. }
  assert (∀ name l, (name, AField l) ∈ as_attrs (fields (__dict__ F))
                    ↔ (name, AField l) ∈ __dict__ F) as Hattrs.
  { intros name l. unfold as_attrs. rewrite list_elem_of_fmap. split.
    - intros ([k l0] & Heq & Hin). simpl in Heq. simplify_eq.
      by apply fields_elem_of.
    - intros Hin. exists (name, l). split; [done|].
      by apply fields_elem_of. }
  assert (widgets_set (widget_or_default w) (fields (__dict__ F)).*2
            (<[fresh (dom h) := hidden_required]> h) !! fresh (dom h)
          = Some hidden_required) as Hhidden.
  { rewrite widgets_set_lookup. rewrite decide_False.
    + apply lookup_insert_eq.
    + intros Hin. apply list_elem_of_fmap in Hin as [[name l] [Heq Hin]].
      simpl in Heq. apply fields_elem_of in Hin.
      by eapply allocated_not_fresh. }
  eexists _, _, (fresh (dom h)), hidden_required.
  split; [by apply create_editable_list_form_returns|].
  split; [done|]. split; [done|]. split; [done|].
  split; [|split; [|split; [|split; [|split; [|split; [|split]]]]]].
  - intros name. unfold field_names at 1. simpl.
    rewrite fields_as_attrs. simpl. apply elem_of_cons.
  - intros name a. cbn [__dict__]. rewrite elem_of_cons. split.
    + intros [Heq|Hin]; [left; by simplify_eq|right].
      unfold as_attrs in Hin.
      apply list_elem_of_fmap in Hin as ([k l] & Heq & Hin).
      simpl in Heq. simplify_eq. exists l. split; [done|].
      by apply fields_elem_of.
    + intros [[-> ->]|(l & -> & Hin)]; [by left|right]. by apply Hattrs.
  - apply not_elem_of_dom, is_fresh.
  - exact Hhidden.
  - reflexivity.
  - reflexivity.
  - reflexivity.
  - intros name l Hin. split.
    + cbn [__dict__]. apply dict_get_elem_of; [done|].
      right. by apply Hattrs.
    + destruct (Hall _ _ Hin) as [f Hf].
      exists f, (set_kwarg "widget" (KWidget (widget_or_default w)) f).
      split; [done|]. split; [|split; [|split; [|done]]].
      * rewrite widgets_set_lookup, decide_True.
        -- rewrite lookup_insert_ne by
             (intros Heq; by eapply allocated_not_fresh).
           by rewrite Hf.
        -- apply list_elem_of_fmap. exists (name, l). split; [done|].
           by apply fields_elem_of.
      * simpl. rewrite lookup_insert_eq. by destruct w.
      * intros key Hkey. simpl. by apply lookup_insert_ne.
Qed.

Lemma sample_form_allocated :
  fields_allocated (__dict__ sample_form) sample_heap.
Proof.
  intros name l Hin.
  each_entry Hin ltac:(eexists; vm_compute; reflexivity).
Qed.

Lemma create_editable_list_form_fields_witness :
  ∃ ListForm h' pk fpk fa,
    create_editable_list_form "BaseForm" sample_form None sample_heap
    = (h', inr ListForm)
    ∧ bases ListForm = ["BaseForm"]
    ∧ __dict__ ListForm
      = [("list_form_pk", AField pk); ("a", AField 1%positive);
         ("b", AField 2%positive); ("c", AField 3%positive)]
    ∧ h' !! pk = Some fpk
    ∧ field_class_of fpk = HiddenField
    ∧ kwargs fpk !! "validators" = Some (KValidators [InputRequired])
    ∧ h' !! 1%positive = Some fa
    ∧ kwargs fa !! "widget" = Some (KWidget XEditableWidget)
    ∧ kwargs fa !! "description" = Some (KValue "A")
    ∧ field_class_of fa = Field "StringField".
Proof.
  destruct (create_editable_list_form_fields
              "BaseForm" sample_form None sample_heap)
    as (ListForm & h' & pk & fpk & Hrun & Hbases & Hdict & _ & _ & _ & _
        & Hpk & Hclass & _ & Hkw & Hfields).
  - by_evaluation.
  - apply sample_form_allocated.
  - by_evaluation.
  - destruct (Hfields "a" 1%positive)
      as (_ & f & fa & Hf & Hfa & Hwidget & Hrest & Hcls & _).
    { simpl. apply list_elem_of_further, list_elem_of_here. }
    assert (sample_heap !! 1%positive = Some (text_field "A")) as Hsrc
      by (vm_compute; reflexivity).
    rewrite Hsrc in Hf. injection Hf as <-.
    exists ListForm, h', pk, fpk, fa.
    split; [done|]. split; [done|]. split; [done|]. split; [done|].
    split; [done|]. split; [by rewrite Hkw|]. split; [done|].
    split; [done|]. split; [by rewrite Hrest|]. done.
Defined.

(** C10, as the code has it: the call changes the field objects of the
    source form class in place.  When the call returns a derived class,
    that is when no field is named [list_form_pk], every declared field of
    the source has its [widget] keyword argument set to the given widget,
    the rest of the object unchanged; the derived class holds the same
    object (the same location) under the same name, so the source class,
    whose namespace still names that location, sees the new widget; no
    other object of the store is touched. *)
Theorem create_editable_list_form_mutates_source base F w h :
  NoDup (__dict__ F).*1 →
  fields_allocated (__dict__ F) h →
  "list_form_pk" ∉ field_names (__dict__ F) →
  ∃ ListForm h',
    create_editable_list_form base F w h = (h', inr ListForm)
    ∧ (∀ name l, (name, AField l) ∈ __dict__ F →
         (name, AField l) ∈ __dict__ ListForm
         ∧ ∃ f f', h !! l = Some f ∧ h' !! l = Some f'
                   ∧ kwargs f' !! "widget"
                     = Some (KWidget match w with
                                     | Some given => given
                                     | None => XEditableWidget
                                     end)
                   ∧ (∀ key, key ≠ "widget" →
                             kwargs f' !! key = kwargs f !! key)
                   ∧ field_class_of f' = field_class_of f
                   ∧ args f' = args f)
    ∧ (∀ l, is_Some (h !! l) → l ∉ (fields (__dict__ F)).*2 →
            h' !! l = h !! l).
Proof.
  intros Hnd Hall Hpk. eexists _, _.
  split; [by apply create_editable_list_form_returns|]. split.
  - intros name l Hin. split.
    + cbn [__dict__]. right. unfold as_attrs. apply list_elem_of_fmap.
      exists (name, l). split; [done|]. by apply fields_elem_of.
    + destruct (Hall _ _ Hin) as [f Hf].
      exists f, (set_kwarg "widget" (KWidget (widget_or_default w)) f).
      split; [done|]. split; [|split; [|split; [|done]]].
      * rewrite widgets_set_lookup, decide_True.
        -- rewrite lookup_insert_ne by
             (intros Heq; by eapply allocated_not_fresh).
           by rewrite Hf.
        -- apply list_elem_of_fmap. exists (name, l). split; [done|].
           by apply fields_elem_of.
      * simpl. rewrite lookup_insert_eq. by destruct w.
      * intros key Hkey. simpl. by apply lookup_insert_ne.
  - intros l [f Hf] Hl. rewrite widgets_set_lookup, decide_False by done.
    apply lookup_insert_ne. intros Heq.
    apply (is_fresh (dom h)). rewrite Heq. apply elem_of_dom. eauto.
Qed.

Lemma create_editable_list_form_mutates_source_witness :
  ∃ ListForm h',
    create_editable_list_form "BaseForm" sample_form (Some (Widget "Select2"))
      sample_heap = (h', inr ListForm)
    ∧ ("b", AField 2%positive) ∈ __dict__ ListForm
    ∧ (∃ f', h' !! 2%positive = Some f'
             ∧ kwargs f' !! "widget" = Some (KWidget (Widget "Select2"))).
Proof.
  destruct (create_editable_list_form_mutates_source
              "BaseForm" sample_form (Some (Widget "Select2")) sample_heap)
    as (ListForm & h' & Hrun & Hfields & _).
  - by_evaluation.
  - apply sample_form_allocated.
  - by_evaluation.
  - exists ListForm, h'. split; [done|].
    destruct (Hfields "b" 2%positive) as (Hin & f & f' & _ & Hf' & Hw & _).
    + simpl. apply list_elem_of_further, list_elem_of_further,
        list_elem_of_here.
    + split; [done|]. exists f'. done.
Defined.

(** C10 as the spec words it fails on a call that raises: the loop stops
    at the field named [list_form_pk], so a field declared after it keeps
    the widget it had (here none), and no derived class exists. *)
Lemma create_editable_list_form_raising_call_counterexample :
  (∃ h', create_editable_list_form "BaseForm" clashing_form None sample_heap
         = (h', inl (Exception_ "Form already has a list_form_pk column."))
         ∧ ("c", AField 3%positive) ∈ __dict__ clashing_form
         ∧ h' !! 3%positive = Some (text_field "C")
         ∧ kwargs (text_field "C") !! "widget" = None)
  ∧ ¬ (∀ base F w h,
         NoDup (__dict__ F).*1 →
         fields_allocated (__dict__ F) h →
         ∀ name l, (name, AField l) ∈ __dict__ F →
           ∃ f', (create_editable_list_form base F w h).1 !! l = Some f'
                 ∧ kwargs f' !! "widget"
                   = Some (KWidget match w with
                                   | Some given => given
                                   | None => XEditableWidget
                                   end)).
Proof.
  assert (∃ h', create_editable_list_form "BaseForm" clashing_form None
                  sample_heap
                = (h', inl (Exception_
                              "Form already has a list_form_pk column."))
                ∧ h' !! 3%positive = Some (text_field "C")) as (h' & Hrun & Hc).
  { eexists. split; [vm_compute; reflexivity|]. vm_compute. reflexivity. }
  assert (("c", AField 3%positive) ∈ __dict__ clashing_form) as Hin.
  { simpl. apply list_elem_of_further, list_elem_of_further,
      list_elem_of_here. }
  split.
  - exists h'. split; [done|]. split; [done|]. split; [done|].
    vm_compute. reflexivity.
  - intros H.
    destruct (H "BaseForm" clashing_form None sample_heap) with
      (name := "c") (l := 3%positive) as (f' & Hf' & Hw).
    + by_evaluation.
    + intros name l Hl.
      each_entry Hl ltac:(eexists; vm_compute; reflexivity).
    + done.
    + rewrite Hrun in Hf'. simpl in Hf'. rewrite Hc in Hf'.
      injection Hf' as <-. vm_compute in Hw. discriminate Hw.
Qed.

End EditableListForm.

(** ** Inline-admin descriptors *)

Section InlineAdmin.

Import Inline Reference Samples.

Lemma getattr_setattr o k v k' :
  getattr (setattr o k v) k' = if decide (k = k') then Some v else getattr o k'.
Proof.
  unfold getattr, setattr. simpl. destruct (decide (k = k')) as [->|Hne].
  - by rewrite lookup_insert_eq.
  - by rewrite lookup_insert_ne.
Qed.

Lemma scan_defaults_getattr ks o k :
  getattr (foldl (λ o k, if hasattr o k then o else setattr o k VNone) o ks) k
  = match getattr o k with
    | Some v => Some v
    | None => if decide (k ∈ ks) then Some VNone else None
    end.
Proof.
  revert o. induction ks as [|k0 ks IH]; intros o; simpl.
  - by destruct (getattr o k).
  - rewrite IH. unfold hasattr.
    destruct (getattr o k0) as [v0|] eqn:E0.
    + destruct (getattr o k) as [v|] eqn:E; [done|].
      assert (k0 ≠ k) as Hne by congruence.
      destruct (decide (k ∈ ks)) as [Hin|Hnin].
      * by rewrite decide_True by (by right).
      * rewrite decide_False; [done|].
        intros [?|?]%elem_of_cons; congruence.
    + rewrite getattr_setattr. destruct (decide (k0 = k)) as [->|Hne].
      * rewrite E0. by rewrite decide_True by left.
      * destruct (getattr o k) as [v|]; [done|].
        destruct (decide (k ∈ ks)) as [Hin|Hnin].
        -- by rewrite decide_True by (by right).
        -- rewrite decide_False; [done|].
           intros [?|?]%elem_of_cons; congruence.
Qed.

Lemma init_defaults_getattr o k :
  getattr (init_defaults o) k
  = match getattr o k with
    | Some v => Some v
    | None => if decide (k ∈ _defaults) then Some VNone else None
    end.
Proof. apply scan_defaults_getattr. Qed.

Lemma apply_kwargs_union o kwargs :
  apply_kwargs o kwargs
  = {| ob_mro := ob_mro o;
       ob_class_attrs := ob_class_attrs o;
       ob_dict := kwargs ∪ ob_dict o |}.
Proof.
  unfold apply_kwargs.
  apply (map_fold_weak_ind
           (λ r (m : gmap string pyval),
              r = {| ob_mro := ob_mro o;
                     ob_class_attrs := ob_class_attrs o;
                     ob_dict := m ∪ ob_dict o |})).
  - rewrite (left_id_L ∅ (∪)). by destruct o.
  - intros k v m r Hk ->. unfold setattr. simpl. by rewrite insert_union_l.
Qed.

Lemma apply_kwargs_getattr o kwargs k :
  getattr (apply_kwargs o kwargs) k
  = match kwargs !! k with Some v => Some v | None => getattr o k end.
Proof.
  rewrite apply_kwargs_union. unfold getattr. simpl.
  rewrite lookup_union. destruct (kwargs !! k), (ob_dict o !! k); done.
Qed.

(** The value the constructor reads back as [form_rules]. *)
Lemma init_form_rules o kwargs :
  getattr_default (apply_kwargs (init_defaults o) kwargs) "form_rules" VNone
  = match kwargs !! "form_rules" with
    | Some v => v
    | None => getattr_default o "form_rules" VNone
    end.
Proof.
  unfold getattr_default. rewrite apply_kwargs_getattr, init_defaults_getattr.
  destruct (kwargs !! "form_rules"); [done|].
  destruct (getattr o "form_rules"); [done|].
  rewrite decide_False; [done|]. by_evaluation.
Qed.

Lemma InlineBaseFormAdmin_init_getattr self o kwargs k :
  k ≠ "_form_rules" →
  getattr (InlineBaseFormAdmin_init self o kwargs) k
  = match kwargs !! k with
    | Some v => Some v
    | None =>
        match getattr o k with
        | Some v => Some v
        | None => if decide (k ∈ _defaults) then Some VNone else None
        end
    end.
Proof.
  intros Hk. unfold InlineBaseFormAdmin_init.
  rewrite getattr_setattr, decide_False by done.
  by rewrite apply_kwargs_getattr, init_defaults_getattr.
Qed.

Lemma InlineBaseFormAdmin_init_rules self o kwargs :
  getattr (InlineBaseFormAdmin_init self o kwargs) "_form_rules"
  = Some (let form_rules :=
            match kwargs !! "form_rules" with
            | Some v => v
            | None => getattr_default o "form_rules" VNone
            end in
          if truthy form_rules then VRuleSet self form_rules else VNone).
Proof.
  unfold InlineBaseFormAdmin_init.
  rewrite getattr_setattr, decide_True by done.
  by rewrite init_form_rules.
Qed.

(** C9, as the code has it: after [InlineBaseFormAdmin.__init__] every
    name of [_defaults] is an attribute, [None] where neither the class nor
    the keywords gave it a value; every keyword override is an attribute
    with the given value; and [_form_rules] is the [RuleSet] built from
    [form_rules] exactly when the attribute [form_rules] (keyword or class
    attribute) is truthy, that is neither [None] nor empty, and [None]
    otherwise. *)
Theorem InlineBaseFormAdmin_init_attributes self o kwargs :
  let o' := InlineBaseFormAdmin_init self o kwargs in
  let form_rules :=
    match kwargs !! "form_rules" with
    | Some v => v
    | None => getattr_default o "form_rules" VNone
    end in
  (∀ k, k ∈ _defaults → is_Some (getattr o' k))
  ∧ (∀ k, k ∈ _defaults → getattr o k = None → kwargs !! k = None →
          getattr o' k = Some VNone)
  ∧ (∀ k v, k ∈ _defaults → getattr o k = Some v → kwargs !! k = None →
            getattr o' k = Some v)
  ∧ (∀ k v, kwargs !! k = Some v → k ≠ "_form_rules" →
            getattr o' k = Some v)
  ∧ (truthy form_rules = true →
     getattr o' "_form_rules" = Some (VRuleSet self form_rules))
  ∧ (truthy form_rules = false → getattr o' "_form_rules" = Some VNone).
Proof.
  intros o' form_rules.
  assert (∀ k, k ∈ _defaults → k ≠ "_form_rules") as Hdef.
  { intros k Hk ->. revert Hk. by_evaluation. }
  repeat split.
  - intros k Hk. unfold o'.
    rewrite InlineBaseFormAdmin_init_getattr by auto.
    destruct (kwargs !! k); [eauto|]. destruct (getattr o k); [eauto|].
    rewrite decide_True by done. eauto.
  - intros k Hk Ho Hkw. unfold o'.
    rewrite InlineBaseFormAdmin_init_getattr by auto.
    by rewrite Hkw, Ho, decide_True.
  - intros k v Hk Ho Hkw. unfold o'.
    rewrite InlineBaseFormAdmin_init_getattr by auto.
    by rewrite Hkw, Ho.
  - intros k v Hkw Hk. unfold o'.
    rewrite InlineBaseFormAdmin_init_getattr by done. by rewrite Hkw.
  - intros Ht. unfold o'. rewrite InlineBaseFormAdmin_init_rules. simpl.
    fold form_rules. by rewrite Ht.
  - intros Ht. unfold o'. rewrite InlineBaseFormAdmin_init_rules. simpl.
    fold form_rules. by rewrite Ht.
Qed.

Lemma InlineBaseFormAdmin_init_attributes_witness :
  getattr (InlineBaseFormAdmin_init 1%positive MyInlineForm_instance
             {[ "form_rules" := VList [VStr "name"] ]}) "form_args"
  = Some VNone
  ∧ getattr (InlineBaseFormAdmin_init 1%positive MyInlineForm_instance
               {[ "form_rules" := VList [VStr "name"] ]}) "_form_rules"
    = Some (VRuleSet 1%positive (VList [VStr "name"])).
Proof.
  pose proof (InlineBaseFormAdmin_init_attributes 1%positive
                MyInlineForm_instance {[ "form_rules" := VList [VStr "name"] ]})
    as (_ & Hunset & _ & _ & Hrules & _).
  split.
  - apply Hunset; [by_evaluation|reflexivity|reflexivity].
  - apply Hrules. reflexivity.
Defined.

(** C9 as the spec words it fails: an empty [form_rules] is supplied, and
    no rule set is stored. *)
Lemma form_rules_supplied_counterexample :
  ¬ (∀ self o kwargs v,
       kwargs !! "form_rules" = Some v → v ≠ VNone →
       getattr (InlineBaseFormAdmin_init self o kwargs) "_form_rules"
       = Some (VRuleSet self v)).
Proof.
  intros H.
  specialize (H 1%positive MyInlineForm_instance
                {[ "form_rules" := VList [] ]} (VList [])).
  rewrite InlineBaseFormAdmin_init_rules in H.
  specialize (H eq_refl). simpl in H.
  assert (VList [] ≠ VNone) as Hne by discriminate.
  specialize (H Hne). discriminate H.
Qed.

End InlineAdmin.

(** ** The compatibility helper [_on_model_change] *)

Section CompatibilityHelper.

Import Inline Reference Samples.

Context {U : Type}.

Implicit Types (m : method U) (w : world U).

(** A two-parameter override rejects the three-argument call before its
    body runs. *)
Lemma call_three_on_two m form model is_created w :
  params m = 2 →
  ∃ msg, call m [form; model; is_created] w = (w, inl (TypeError msg)).
Proof.
  intros Hp. unfold call. rewrite decide_False; [eauto|].
  simpl. rewrite Hp. lia.
Qed.

(** For a descriptor that has a [model] attribute, the helper warns once
    and hands over to the two-argument call, whose outcome is the
    helper's. *)
Lemma _on_model_change_legacy self m form model is_created w mv msg :
  params m = 2 →
  getattr self "model" = Some mv →
  percent on_model_change_msg mv = inr msg →
  _on_model_change self m form model is_created w
  = let '(u, r) := body m [form; model] (user w) in
    ({| warnings := warnings w ++ [msg]; user := u |},
     match r with Some e => inl e | None => inr VNone end).
Proof.
  intros Hp Hmodel Hmsg. unfold _on_model_change.
  destruct (call_three_on_two m form model is_created w Hp) as [tmsg ->].
  rewrite Hmodel, Hmsg. unfold call, warn. simpl.
  rewrite decide_True by (by rewrite Hp).
  destruct (body m [form; model] (user w)) as [u [e|]]; done.
Qed.

(** Without a [model] attribute the helper fails while it builds the
    warning: nothing is warned and the override is never called. *)
Lemma _on_model_change_no_model self m form model is_created w :
  params m = 2 →
  getattr self "model" = None →
  _on_model_change self m form model is_created w
  = (w, inl (AttributeError "model")).
Proof.
  intros Hp Hmodel. unfold _on_model_change.
  destruct (call_three_on_two m form model is_created w Hp) as [tmsg ->].
  by rewrite Hmodel.
Qed.

End CompatibilityHelper.

Section CompatibilityHelperRuns.

Import Inline Reference Samples.

(** C5 at a descriptor of the base class: [MyInlineForm] derives from
    [InlineBaseFormAdmin], which never sets [model], and overrides
    [on_model_change(self, form, model)].  The helper raises
    [AttributeError]; no warning is issued and the override has not run. *)
Example on_model_change_base_descriptor :
  getattr base_descriptor "model" = None
  ∧ params legacy_hook = 2
  ∧ _on_model_change base_descriptor legacy_hook
      (VStr "form") (VStr "row") (VBool true) quiet_world
    = ({| warnings := []; user := 0 |}, inl (AttributeError "model")).
Proof. repeat split. Qed.

(** On a descriptor of [InlineFormAdmin] the same override is served: one
    warning for each call, and the override runs once with two arguments. *)
Example on_model_change_relational_descriptor :
  _on_model_change plain_info legacy_hook
    (VStr "form") (VStr "row") (VBool true) quiet_world
  = ({| warnings := [Warn on_model_change_msg (VClass "Email")]; user := 1 |},
     inr VNone).
Proof. reflexivity. Qed.

End CompatibilityHelperRuns.

(** ** The inline converter base *)

Section InlineConverter.

Import Inline Reference Samples.

(** C6, as the code has it: [get_label] returns the descriptor's
    [form_label] when that attribute is truthy (set and not empty);
    otherwise the entry of [name] in the view's [column_labels] when there
    is one; otherwise [None].  It returns nothing else. *)
Theorem get_label_resolution self info name :
  (∀ v, getattr info "form_label" = Some v → truthy v = true →
        get_label self info name = v)
  ∧ (truthy (getattr_default info "form_label" VNone) = false →
     ∀ labels label,
       column_labels (self_view self) = Some labels →
       labels !! name = Some label →
       get_label self info name = label)
  ∧ (truthy (getattr_default info "form_label" VNone) = false →
     (column_labels (self_view self) = None
      ∨ ∃ labels, column_labels (self_view self) = Some labels
                  ∧ labels !! name = None) →
     get_label self info name = VNone).
Proof.
  unfold get_label, getattr_default. repeat split.
  - intros v -> ->. done.
  - intros -> labels label -> Hl.
    destruct (size labels =? 0)%nat eqn:Hsz; simpl.
    + apply Nat.eqb_eq, map_size_empty_iff in Hsz. subst labels.
      by rewrite lookup_empty in Hl.
    + by rewrite Hl.
  - intros -> [->|(labels & -> & Hl)]; [done|].
    destruct (negb _); [|done]. by rewrite Hl.
Qed.

Lemma get_label_resolution_witness :
  get_label inline_converter plain_info "email" = VStr "E-mail"
  ∧ get_label inline_converter custom_info "email" = VStr "Custom"
  ∧ get_label inline_converter plain_info "name" = VNone.
Proof.
  split; [|split].
  - apply (proj1 (proj2 (get_label_resolution
                           inline_converter plain_info "email"))
             eq_refl {[ "email" := VStr "E-mail" ]} (VStr "E-mail"));
      reflexivity.
  - apply (proj1 (get_label_resolution inline_converter custom_info "email")
             (VStr "Custom")); reflexivity.
  - apply (proj2 (proj2 (get_label_resolution
                           inline_converter plain_info "name")) eq_refl).
    right. exists {[ "email" := VStr "E-mail" ]}. split; reflexivity.
Defined.

(** C6 as the spec words it fails: a [form_label] set to the empty string
    is set, and [get_label] passes over it. *)
Lemma get_label_empty_override_counterexample :
  getattr blank_info "form_label" = Some (VStr "")
  ∧ get_label inline_converter blank_info "email" = VStr "E-mail"
  ∧ ¬ (∀ self info name v,
         getattr info "form_label" = Some v → v ≠ VNone →
         get_label self info name = v).
Proof.
  assert (getattr blank_info "form_label" = Some (VStr "")) as Hset
    by (vm_compute; reflexivity).
  assert (get_label inline_converter blank_info "email" = VStr "E-mail")
    as Hrun by (vm_compute; reflexivity).
  split; [done|]. split; [done|].
  intros H.
  specialize (H inline_converter blank_info "email" (VStr "") Hset).
  rewrite Hrun in H.
  assert (VStr "" ≠ VNone) as Hne by discriminate.
  specialize (H Hne). discriminate H.
Qed.

(** Initialisation changes attributes only: the instance keeps its class. *)
Lemma InlineFormAdmin_init_isinstance self o model kwargs :
  ob_mro (InlineFormAdmin_init self o model kwargs) = ob_mro o.
Proof.
  unfold InlineFormAdmin_init, InlineBaseFormAdmin_init.
  rewrite apply_kwargs_union. simpl.
  unfold init_defaults, _defaults. simpl.
  repeat (match goal with |- context [hasattr ?x ?k] =>
            destruct (hasattr x k) end; simpl); done.
Qed.

(** C7, as the code has it: [get_info] builds an [InlineFormAdmin] from a
    pair of a model and an options mapping that names neither [model] nor
    [self], with the model and every option as attributes; it returns an
    instance of [InlineFormAdmin] as it is, the same reference and an
    unchanged store; and it returns [None] for every other value that is
    not a tuple, a model class among them. *)
Theorem get_info_shapes self h :
  (∀ model opts,
     opts !! "model" = None → opts !! "self" = None →
     ∃ l o, get_info self (VTuple [model; VDict opts]) h
            = (<[l := o]> h, inr (VRef l))
            ∧ h !! l = None
            ∧ o = InlineFormAdmin_init l InlineFormAdmin_instance model opts
            ∧ isinstance o form_admin_class = true
            ∧ getattr o "model" = Some model
            ∧ (∀ k v, opts !! k = Some v → k ≠ "_form_rules" →
                      getattr o k = Some v))
  ∧ (∀ l o, h !! l = Some o → isinstance o form_admin_class = true →
            get_info self (VRef l) h = (h, inr (VRef l)))
  ∧ (∀ p, (∀ xs, p ≠ VTuple xs) →
          (∀ l o, p = VRef l → h !! l = Some o →
                  isinstance o form_admin_class = false) →
          get_info self p h = (h, inr VNone))
  ∧ (∀ name, get_info self (VClass name) h = (h, inr VNone)).
Proof.
  split; [|split; [|split]].
  - intros model opts Hm Hs.
    exists (fresh (dom h)),
      (InlineFormAdmin_init (fresh (dom h)) InlineFormAdmin_instance
         model opts).
    split.
    { simpl. unfold InlineFormAdmin_new. rewrite decide_False; [done|].
      rewrite Hm, Hs. intros [[? ?]|[? ?]]; done. }
    split; [apply not_elem_of_dom, is_fresh|]. split; [done|].
    split; [|split].
    + unfold isinstance. rewrite InlineFormAdmin_init_isinstance.
      by_evaluation.
    + unfold InlineFormAdmin_init.
      rewrite InlineBaseFormAdmin_init_getattr by done.
      rewrite Hm. by rewrite getattr_setattr, decide_True.
    + intros k v Hk Hne. unfold InlineFormAdmin_init.
      rewrite InlineBaseFormAdmin_init_getattr by done. by rewrite Hk.
  - intros l o Hl Hi. simpl. by rewrite Hl, Hi.
  - intros p Htuple Hinst. destruct p; simpl; try done.
    + by destruct (Htuple xs).
    + destruct (h !! l) as [o|] eqn:Hl; [|done].
      by rewrite (Hinst l o).
  - done.
Qed.

Lemma get_info_shapes_witness :
  (∃ l o, get_info inline_converter
            (VTuple [VClass "Email";
                     VDict {[ "form_label" := VStr "Custom" ]}]) ∅
          = (<[l := o]> ∅, inr (VRef l))
          ∧ isinstance o form_admin_class = true
          ∧ getattr o "model" = Some (VClass "Email")
          ∧ getattr o "form_label" = Some (VStr "Custom"))
  ∧ get_info inline_converter (VRef 1%positive) {[ 1%positive := plain_info ]}
    = ({[ 1%positive := plain_info ]}, inr (VRef 1%positive))
  ∧ get_info inline_converter (VClass "Email") ∅ = (∅, inr VNone)
  ∧ get_info inline_converter (VInt 3) ∅ = (∅, inr VNone).
Proof.
  split; [|split; [|split]].
  - destruct (proj1 (get_info_shapes inline_converter ∅)
                (VClass "Email") {[ "form_label" := VStr "Custom" ]})
      as (l & o & Hrun & _ & _ & Hinst & Hmodel & Hopts);
      [vm_compute; reflexivity|vm_compute; reflexivity|].
    exists l, o. repeat split; [done|done|done|].
    apply Hopts; [vm_compute; reflexivity|discriminate].
  - apply (proj1 (proj2 (get_info_shapes inline_converter
                           {[ 1%positive := plain_info ]}))
             1%positive plain_info); vm_compute; reflexivity.
  - apply (proj2 (proj2 (proj2 (get_info_shapes inline_converter ∅)))).
  - apply (proj1 (proj2 (proj2 (get_info_shapes inline_converter ∅)))).
    + intros xs. discriminate.
    + intros l o. discriminate.
Defined.

(** C7 as the spec words it fails: a one-item tuple is neither a pair nor a
    descriptor, and [get_info] raises instead of returning [None]; so does a
    pair whose options name [model]. *)
Lemma get_info_short_tuple_counterexample :
  get_info inline_converter (VTuple [VClass "Email"]) ∅
  = (∅, inl (IndexError "tuple index out of range"))
  ∧ (∃ msg, get_info inline_converter
              (VTuple [VClass "Email"; VDict {[ "model" := VNone ]}]) ∅
            = (∅, inl (TypeError msg)))
  ∧ ¬ (∀ self h p,
         (∀ model opts, p ≠ VTuple [model; VDict opts]) →
         (∀ l, p ≠ VRef l) →
         get_info self p h = (h, inr VNone)).
Proof.
  split; [reflexivity|]. split; [eexists; vm_compute; reflexivity|].
  intros H.
  specialize (H inline_converter ∅ (VTuple [VClass "Email"])).
  assert (get_info inline_converter (VTuple [VClass "Email"]) ∅
          = (∅, inl (IndexError "tuple index out of range"))) as Hrun
    by reflexivity.
  rewrite Hrun in H.
  assert ((∅ : heap, inl (IndexError "tuple index out of range")
             : exn + pyval) ≠ (∅, inr VNone)) as Hne by discriminate.
  apply Hne, H.
  - intros model opts. discriminate.
  - intros l. discriminate.
Qed.

End InlineConverter.

(** * Further properties of the code *)

(** ** Resolver and registry together *)

Section ResolverOrder.

Import Converter Reference Samples.

Lemma search_by_module_name_app convs pre t post conv :
  (∀ t', t' ∈ pre → convs !! type_string t' = None) →
  convs !! type_string t = Some conv →
  search_by_module_name convs (pre ++ t :: post) = Some conv.
Proof.
  induction pre as [|p pre IH]; intros Hpre Ht; simpl.
  - by rewrite Ht.
  - rewrite (Hpre p) by left. apply IH; [|done].
    intros t' Ht'. apply Hpre. by right.
Qed.

Lemma search_by_name_app convs pre t post conv :
  (∀ t', t' ∈ pre → convs !! __name__ t' = None) →
  convs !! __name__ t = Some conv →
  search_by_name convs (pre ++ t :: post) = Some conv.
Proof.
  induction pre as [|p pre IH]; intros Hpre Ht; simpl.
  - by rewrite Ht.
  - rewrite (Hpre p) by left. apply IH; [|done].
    intros t' Ht'. apply Hpre. by right.
Qed.

Lemma search_by_module_name_Some convs types conv :
  search_by_module_name convs types = Some conv →
  ∃ t, t ∈ types ∧ convs !! type_string t = Some conv.
Proof.
  induction types as [|t ts IH]; simpl; [done|].
  destruct (convs !! type_string t) as [c|] eqn:E.
  - intros [= ->]. exists t. split; [left|done].
  - intros (t' & Hin & Ht')%IH. exists t'. split; [by right|done].
Qed.

Lemma search_by_name_Some convs types conv :
  search_by_name convs types = Some conv →
  ∃ t, t ∈ types ∧ convs !! __name__ t = Some conv.
Proof.
  induction types as [|t ts IH]; simpl; [done|].
  destruct (convs !! __name__ t) as [c|] eqn:E.
  - intros [= ->]. exists t. split; [left|done].
  - intros (t' & Hin & Ht')%IH. exists t'. split; [by right|done].
Qed.

(** X1: the qualified pass runs over the whole candidate list before any
    bare name is tried: the first candidate whose qualified identifier is
    registered decides, also when the bare name of an earlier candidate is
    registered. *)
Theorem get_converter_qualified_priority self col pre t post conv :
  candidates (use_mro self) col = pre ++ t :: post →
  (∀ t', t' ∈ pre → converters self !! type_string t' = None) →
  converters self !! type_string t = Some conv →
  get_converter self col = Some conv.
Proof.
  intros Hc Hpre Ht. unfold get_converter.
  fold (candidates (use_mro self) col). rewrite Hc.
  by rewrite (search_by_module_name_app _ pre t post conv).
Qed.

Lemma get_converter_qualified_priority_witness :
  converters (priority_registry true) !! "Money" = Some conv_money
  ∧ get_converter (priority_registry true) sample_column = Some conv_numeric.
Proof.
  split; [vm_compute; reflexivity|].
  apply (get_converter_qualified_priority (priority_registry true)
           sample_column [sample_T] sample_A [sample_B] conv_numeric).
  - reflexivity.
  - intros t' Ht'. apply list_elem_of_singleton in Ht' as ->.
    vm_compute. reflexivity.
  - vm_compute. reflexivity.
Defined.

(** X2: when no candidate has a registered qualified identifier, the first
    candidate in order whose bare name is registered decides. *)
Theorem get_converter_bare_name_order self col pre t post conv :
  candidates (use_mro self) col = pre ++ t :: post →
  (∀ t', t' ∈ pre ++ t :: post →
         converters self !! type_string t' = None) →
  (∀ t', t' ∈ pre → converters self !! __name__ t' = None) →
  converters self !! __name__ t = Some conv →
  get_converter self col = Some conv.
Proof.
  intros Hc Hq Hpre Ht. unfold get_converter.
  fold (candidates (use_mro self) col). rewrite Hc.
  rewrite search_by_module_name_None by done.
  by apply search_by_name_app.
Qed.

Lemma get_converter_bare_name_order_witness :
  get_converter (sample_registry true) sample_column = Some sample_conv.
Proof.
  apply (get_converter_bare_name_order (sample_registry true) sample_column
           [sample_T; sample_A] sample_B [] sample_conv).
  - reflexivity.
  - intros t' Ht'.
    each_entry Ht' ltac:(vm_compute; reflexivity).
  - intros t' Ht'.
    each_entry Ht' ltac:(vm_compute; reflexivity).
  - vm_compute. reflexivity.
Defined.

(** X3: a converter that [get_converter] returns is registered under the
    qualified identifier or the bare name of one of the candidates; the
    lookup returns nothing else. *)
Theorem get_converter_registered self col conv :
  get_converter self col = Some conv →
  ∃ t, t ∈ candidates (use_mro self) col
       ∧ (converters self !! type_string t = Some conv
          ∨ converters self !! __name__ t = Some conv).
Proof.
  unfold get_converter. fold (candidates (use_mro self) col).
  destruct (search_by_module_name _ _) as [c|] eqn:E.
  - intros [= ->]. apply search_by_module_name_Some in E as (t & ? & ?).
    exists t. auto.
  - intros (t & ? & ?)%search_by_name_Some. exists t. auto.
Qed.

Lemma get_converter_registered_witness :
  ∃ t, t ∈ candidates true sample_column
       ∧ (converters (priority_registry true) !! type_string t
          = Some conv_numeric
          ∨ converters (priority_registry true) !! __name__ t
            = Some conv_numeric).
Proof.
  apply (get_converter_registered (priority_registry true) sample_column
           conv_numeric).
  vm_compute. reflexivity.
Defined.

(** X4: an identifier has an entry in the registry exactly when the seed
    mapping had one or some scanned member claims it. *)
Theorem init_registry_domain members seed mro id :
  is_Some (converters (init members seed mro) !! id)
  ↔ is_Some (seed_mapping seed !! id)
    ∨ ∃ obj, obj ∈ members.*2 ∧ claims id obj = true.
Proof.
  simpl. rewrite scan_lookup.
  destruct (last_claimant id (members.*2)) as [obj|] eqn:E.
  - split; [|eauto]. intros _. right. exists obj.
    apply last_claimant_claims in E as [??]. done.
  - split; [by left|]. intros [H|(obj & Hin & Hc)]; [done|].
    destruct (last_claimant_is_Some id _ _ Hin Hc) as [o Ho]. congruence.
Qed.

Lemma init_registry_domain_witness :
  is_Some (converters (init scanned_members seeded true) !! "Date")
  ∧ is_Some (converters (init scanned_members seeded true) !! "Unicode")
  ∧ ¬ is_Some (converters (init scanned_members seeded true) !! "Integer").
Proof.
  split; [|split].
  - apply init_registry_domain. left. vm_compute. eauto.
  - apply init_registry_domain. right. exists conv_text_late.
    split; [|vm_compute; reflexivity].
    apply list_elem_of_further, list_elem_of_here.
  - intros H. apply init_registry_domain in H as [H|(obj & Hin & Hc)].
    + vm_compute in H. by destruct H.
    + each_entry Hin ltac:(vm_compute in Hc; discriminate Hc).
Defined.

(** X5: registry and resolver together: a member that claims the qualified
    identifier of a column's exact type, with no later member claiming it
    too, is the converter of that column, whatever the seed mapping held
    and with or without ancestor search. *)
Theorem registered_member_resolves pre name obj post seed mro col ids :
  _converter_for obj = Some ids →
  type_string (column_type col) ∈ ids →
  (∀ o, o ∈ post.*2 → claims (type_string (column_type col)) o = false) →
  get_converter (init (pre ++ (name, obj) :: post) seed mro) col = Some obj.
Proof.
  intros Htag Hid Hpost.
  assert (converters (init (pre ++ (name, obj) :: post) seed mro)
            !! type_string (column_type col) = Some obj) as Hreg.
  { simpl. rewrite scan_lookup, fmap_app, fmap_cons. simpl.
    rewrite last_claimant_app; [done| |done].
    unfold claims. rewrite Htag. by apply bool_decide_eq_true_2. }
  unfold get_converter.
  assert (∃ rest, (if use_mro (init (pre ++ (name, obj) :: post) seed mro)
                   then getmro col else [column_type col])
                  = column_type col :: rest) as [rest ->].
  { destruct (use_mro _); eexists; reflexivity. }
  cbn [search_by_module_name]. by rewrite Hreg.
Qed.

Lemma registered_member_resolves_witness :
  get_converter
    (init [("conv_numeric", conv_numeric); ("conv_money", conv_money)]
          seeded false)
    (Column sample_A [sample_B])
  = Some conv_numeric.
Proof.
  apply (registered_member_resolves [] "conv_numeric" conv_numeric
           [("conv_money", conv_money)] seeded false
           (Column sample_A [sample_B])
           {[ "sqlalchemy.sql.sqltypes.Numeric" ]}).
  - vm_compute. reflexivity.
  - apply elem_of_singleton. reflexivity.
  - intros o Ho. each_entry Ho ltac:(vm_compute; reflexivity).
Defined.

End ResolverOrder.

(** ** The editable-list form: failure, allocation, repeated calls *)

Section EditableListFormEffects.

Import ListForm Reference Samples.







(** X7: a call that returns allocates exactly one object, the
    [list_form_pk] field: the store afterwards holds that new location and
    the locations it held before, no other. *)
Theorem create_editable_list_form_allocates_one base F w h :
  NoDup (__dict__ F).*1 →
  "list_form_pk" ∉ field_names (__dict__ F) →
  ∃ ListForm h',
    create_editable_list_form base F w h = (h', inr ListForm)
    ∧ h !! fresh (dom h) = None
    ∧ ∀ l, is_Some (h' !! l) ↔ l = fresh (dom h) ∨ is_Some (h !! l).
Proof.
  intros Hnd Hpk. eexists _, _.
  split; [by apply create_editable_list_form_returns|].
  split; [apply not_elem_of_dom, is_fresh|].
  intros l. rewrite widgets_set_lookup.
  assert (is_Some (<[fresh (dom h) := hidden_required]> h !! l)
          ↔ l = fresh (dom h) ∨ is_Some (h !! l)) as Hins.
  { rewrite lookup_insert_is_Some'. split; intros [?|?]; auto. }
  destruct (decide _); [|done].
  rewrite <- Hins. apply fmap_is_Some.
Qed.

Lemma create_editable_list_form_allocates_one_witness :
  ∃ ListForm h',
    create_editable_list_form "BaseForm" sample_form None sample_heap
    = (h', inr ListForm)
    ∧ ¬ is_Some (h' !! 7%positive).
Proof.
  destruct (create_editable_list_form_allocates_one
              "BaseForm" sample_form None sample_heap)
    as (ListForm & h' & Hrun & _ & Hdom); [by_evaluation|by_evaluation|].
  exists ListForm, h'. split; [done|].
  intros [Heq|Hsome]%Hdom.
  - vm_compute in Heq. discriminate Heq.
  - vm_compute in Hsome. by destruct Hsome.
Defined.



(** X9: only a field raises for the reserved name.  A source class that
    has some other attribute called [list_form_pk] is accepted, the
    attribute is not copied, and [list_form_pk] of the derived class is the
    new hidden field. *)
Theorem create_editable_list_form_reserved_attribute base F w h repr :
  NoDup (__dict__ F).*1 →
  fields_allocated (__dict__ F) h →
  ("list_form_pk", AOther repr) ∈ __dict__ F →
  ∃ ListForm h',
    create_editable_list_form base F w h = (h', inr ListForm)
    ∧ dict_get (__dict__ ListForm) "list_form_pk"
      = Some (AField (fresh (dom h)))
    ∧ h' !! fresh (dom h) = Some hidden_required
    ∧ ("list_form_pk", AOther repr) ∉ __dict__ ListForm.
Proof.
  intros Hnd Hall Hin.
  assert ("list_form_pk" ∉ field_names (__dict__ F)) as Hpk.
  { intros (l & Hl)%field_names_elem_of.
    pose proof (dict_get_elem_of _ _ _ Hnd Hin) as E1.
    pose proof (dict_get_elem_of _ _ _ Hnd Hl) as E2. congruence. }
  eexists _, _. split; [by apply create_editable_list_form_returns|].
  cbn [__dict__ dict_get]. rewrite decide_True by done.
  split; [done|]. split.
  - rewrite widgets_set_lookup, decide_False; [apply lookup_insert_eq|].
    intros Hf. apply list_elem_of_fmap in Hf as [[name l] [Heq Hf]].
    simpl in Heq. apply fields_elem_of in Hf.
    by eapply allocated_not_fresh.
  - intros [Heq|Hattr]%elem_of_cons; [discriminate Heq|].
    unfold as_attrs in Hattr.
    apply list_elem_of_fmap in Hattr as [[name l] [Heq _]].
    discriminate Heq.
Qed.

Lemma create_editable_list_form_reserved_attribute_witness :
  ∃ ListForm h',
    create_editable_list_form "BaseForm" shadowing_form None sample_heap
    = (h', inr ListForm)
    ∧ dict_get (__dict__ ListForm) "list_form_pk"
      = Some (AField (fresh (dom sample_heap)))
    ∧ h' !! fresh (dom sample_heap) = Some hidden_required.
Proof.
  destruct (create_editable_list_form_reserved_attribute
              "BaseForm" shadowing_form None sample_heap "5")
    as (ListForm & h' & Hrun & Hpk & Hhidden & _).
  - by_evaluation.
  - intros name l Hin.
    each_entry Hin ltac:(eexists; vm_compute; reflexivity).
  - simpl. apply list_elem_of_here.
  - exists ListForm, h'. done.
Defined.

End EditableListFormEffects.

(** ** The compatibility helper on overrides of either signature *)

Section HookSignatures.

Import Inline Reference Samples.

Context {U : Type}.

Implicit Types (m : method U) (w : world U).

(** X10: an override with the current three-parameter signature is called
    once with the three arguments; unless it raises [TypeError] itself its
    outcome is the helper's, and no warning is issued. *)
Theorem on_model_change_current_signature
    self m form model is_created w :
  params m = 3 →
  (∀ msg, (body m [form; model; is_created] (user w)).2
          ≠ Some (TypeError msg)) →
  _on_model_change self m form model is_created w
  = let '(u, r) := body m [form; model; is_created] (user w) in
    ({| warnings := warnings w; user := u |},
     match r with Some e => inl e | None => inr VNone end).
Proof.
  intros Hp Hbody. unfold _on_model_change, call.
  rewrite decide_True by (by rewrite Hp).
  destruct (body m [form; model; is_created] (user w)) as [u [e|]];
    [|done].
  destruct e as [msg| | |]; try done. by destruct (Hbody msg).
Qed.

(** X11: a [TypeError] raised inside a three-parameter override is taken
    for a signature mismatch: on a descriptor with a [model] that is not a
    tuple the helper warns and retries with two arguments, which the
    override rejects, so the caller gets the [TypeError] of the retry
    after the override has run once. *)
Theorem on_model_change_body_type_error
    self m form model is_created w u msg mv :
  params m = 3 →
  body m [form; model; is_created] (user w) = (u, Some (TypeError msg)) →
  getattr self "model" = Some mv →
  (∀ xs, mv ≠ VTuple xs) →
  ∃ msg', _on_model_change self m form model is_created w
          = ({| warnings := warnings w ++ [Warn on_model_change_msg mv];
                user := u |},
             inl (TypeError msg')).
Proof.
  intros Hp Hbody Hmodel Hmv.
  assert (percent on_model_change_msg mv
          = inr (Warn on_model_change_msg mv)) as Hmsg.
  { destruct mv; try done. by destruct (Hmv xs). }
  unfold _on_model_change, call.
  rewrite decide_True by (by rewrite Hp).
  rewrite Hbody, Hmodel, Hmsg. simpl.
  rewrite decide_False by (rewrite Hp; simpl; lia). eauto.
Qed.

(** X12: an override with the old two-parameter signature, on a
    descriptor that has a [model] that is not a tuple: every call of the
    helper issues the warning once, formatted with the model, and then
    runs the override once with [form] and [model]; the override's
    outcome, failure included, is the helper's. *)
Theorem on_model_change_old_signature
    self m form model is_created w mv :
  params m = 2 →
  getattr self "model" = Some mv →
  (∀ xs, mv ≠ VTuple xs) →
  _on_model_change self m form model is_created w
  = let '(u, r) := body m [form; model] (user w) in
    ({| warnings := warnings w ++ [Warn on_model_change_msg mv];
        user := u |},
     match r with Some e => inl e | None => inr VNone end).
Proof.
  intros Hp Hmodel Hmv. apply _on_model_change_legacy with (mv := mv);
    [done|done|].
  destruct mv; try done. by destruct (Hmv xs).
Qed.

End HookSignatures.

Section HookSignaturesRuns.

Import Inline Reference Samples.

Lemma on_model_change_current_signature_witness :
  _on_model_change base_descriptor on_model_change_default
    (VStr "form") (VStr "row") (VBool true) quiet_world
  = (quiet_world, inr VNone)
  ∧ _on_model_change base_descriptor refusing_hook
      (VStr "form") (VStr "row") (VBool true) quiet_world
    = ({| warnings := []; user := 1 |}, inl (Exception_ "read only")).
Proof.
  split.
  - apply (on_model_change_current_signature base_descriptor
             on_model_change_default (VStr "form") (VStr "row") (VBool true)
             quiet_world); [reflexivity|discriminate].
  - apply (on_model_change_current_signature base_descriptor
             refusing_hook (VStr "form") (VStr "row") (VBool true)
             quiet_world); [reflexivity|discriminate].
Defined.

Lemma on_model_change_body_type_error_witness :
  ∃ msg', _on_model_change plain_info confused_hook
            (VStr "form") (VStr "row") (VBool true) quiet_world
          = ({| warnings := [Warn on_model_change_msg (VClass "Email")];
                user := 1 |},
             inl (TypeError msg')).
Proof.
  apply (on_model_change_body_type_error plain_info confused_hook
           (VStr "form") (VStr "row") (VBool true) quiet_world 1
           "unsupported operand" (VClass "Email"));
    [reflexivity|reflexivity|vm_compute; reflexivity|discriminate].
Defined.

Lemma on_model_change_old_signature_witness :
  _on_model_change plain_info legacy_hook
    (VStr "form") (VStr "row") (VBool false)
    {| warnings := [Warn on_model_change_msg (VClass "Email")]; user := 1 |}
  = ({| warnings := [Warn on_model_change_msg (VClass "Email");
                     Warn on_model_change_msg (VClass "Email")];
        user := 2 |}, inr VNone).
Proof.
  apply (on_model_change_old_signature plain_info legacy_hook
           (VStr "form") (VStr "row") (VBool false)
           {| warnings := [Warn on_model_change_msg (VClass "Email")];
              user := 1 |}
           (VClass "Email"));
    [reflexivity|vm_compute; reflexivity|discriminate].
Defined.

End HookSignaturesRuns.

(** ** Descriptor construction and normalisation *)

Section DescriptorNormalisation.

Import Inline Reference Samples.

Lemma scan_defaults_class ks o :
  ob_mro (foldl (λ o k, if hasattr o k then o else setattr o k VNone) o ks)
  = ob_mro o
  ∧ ob_class_attrs
      (foldl (λ o k, if hasattr o k then o else setattr o k VNone) o ks)
    = ob_class_attrs o.
Proof.
  revert o. induction ks as [|k ks IH]; intros o; simpl; [done|].
  destruct (IH (if hasattr o k then o else setattr o k VNone)) as [-> ->].
  by destruct (hasattr o k).
Qed.

Lemma InlineBaseFormAdmin_init_class self o kwargs :
  ob_mro (InlineBaseFormAdmin_init self o kwargs) = ob_mro o
  ∧ ob_class_attrs (InlineBaseFormAdmin_init self o kwargs)
    = ob_class_attrs o.
Proof.
  unfold InlineBaseFormAdmin_init. rewrite apply_kwargs_union. simpl.
  apply scan_defaults_class.
Qed.

(** X13: construction touches nothing else: the instance keeps its class
    and the class its attributes, and an attribute that is neither a
    default, nor a keyword, nor [_form_rules] reads as before; in
    particular [form_rules] itself is not created when it was not
    given. *)
Theorem InlineBaseFormAdmin_init_frame self o kwargs :
  ob_mro (InlineBaseFormAdmin_init self o kwargs) = ob_mro o
  ∧ ob_class_attrs (InlineBaseFormAdmin_init self o kwargs)
    = ob_class_attrs o
  ∧ (∀ k, k ∉ _defaults → kwargs !! k = None → k ≠ "_form_rules" →
          getattr (InlineBaseFormAdmin_init self o kwargs) k = getattr o k).
Proof.
  destruct (InlineBaseFormAdmin_init_class self o kwargs) as [Hm Hc].
  split; [done|]. split; [done|].
  intros k Hk Hkw Hne.
  rewrite InlineBaseFormAdmin_init_getattr by done. rewrite Hkw.
  destruct (getattr o k); [done|]. by rewrite decide_False.
Qed.

Lemma InlineBaseFormAdmin_init_frame_witness :
  getattr base_descriptor "form_rules" = None
  ∧ getattr base_descriptor "form_columns"
    = Some (VTuple [VStr "name"; VStr "email"]).
Proof.
  destruct (InlineBaseFormAdmin_init_frame 1%positive MyInlineForm_instance ∅)
    as (_ & _ & Hframe).
  split.
  - unfold base_descriptor. rewrite Hframe; [reflexivity|by_evaluation|
      reflexivity|discriminate].
  - vm_compute. reflexivity.
Defined.

(** X14: a keyword named [_form_rules] does not survive construction: the
    stored rule set is computed from [form_rules] alone. *)
Theorem InlineBaseFormAdmin_init_rules_keyword self o kwargs v :
  getattr (InlineBaseFormAdmin_init self o (<["_form_rules" := v]> kwargs))
    "_form_rules"
  = getattr (InlineBaseFormAdmin_init self o kwargs) "_form_rules".
Proof.
  rewrite !InlineBaseFormAdmin_init_rules.
  by rewrite lookup_insert_ne by done.
Qed.

(** X15: a tuple with fewer than two items makes [get_info] raise
    [IndexError]; the store is left as it was. *)
Theorem get_info_short_tuple self xs h :
  length xs < 2 →
  ∃ msg, get_info self (VTuple xs) h = (h, inl (IndexError msg)).
Proof.
  intros Hlen. destruct xs as [|x [|y xs]]; simpl in *; [eauto|eauto|lia].
Qed.

Lemma get_info_short_tuple_witness :
  ∃ msg, get_info inline_converter (VTuple []) ∅ = (∅, inl (IndexError msg)).
Proof.
  apply (get_info_short_tuple inline_converter [] ∅). simpl. lia.
Defined.

(** X16: a tuple whose second item is no mapping, or is a mapping that
    names [model] or [self], makes [get_info] raise [TypeError]; no
    descriptor is built and the store is left as it was. *)
Theorem get_info_rejected_options self model v rest h :
  (∀ opts, v = VDict opts →
           is_Some (opts !! "model") ∨ is_Some (opts !! "self")) →
  ∃ msg, get_info self (VTuple (model :: v :: rest)) h
         = (h, inl (TypeError msg)).
Proof.
  intros Hv. simpl. destruct v; try (eexists; reflexivity).
  unfold InlineFormAdmin_new. rewrite decide_True by auto. eauto.
Qed.

Lemma get_info_rejected_options_witness :
  (∃ msg, get_info inline_converter
            (VTuple [VClass "Email"; VList [VStr "name"]]) ∅
          = (∅, inl (TypeError msg)))
  ∧ (∃ msg, get_info inline_converter
              (VTuple [VClass "Email"; VDict {[ "self" := VNone ]}]) ∅
            = (∅, inl (TypeError msg))).
Proof.
  split.
  - apply (get_info_rejected_options inline_converter (VClass "Email")
             (VList [VStr "name"]) [] ∅). intros opts. discriminate.
  - apply (get_info_rejected_options inline_converter (VClass "Email")
             (VDict {[ "self" := VNone ]}) [] ∅).
    intros opts [= <-]. right. vm_compute. eauto.
Defined.

(** X17: normalising a pair allocates the descriptor at a new location and
    changes no object the store already held; normalising the returned
    descriptor again gives back the same reference and the same store. *)
Theorem get_info_normalises_once self h model opts :
  opts !! "model" = None → opts !! "self" = None →
  ∃ l h', get_info self (VTuple [model; VDict opts]) h = (h', inr (VRef l))
          ∧ h !! l = None
          ∧ (∀ l0, is_Some (h !! l0) → h' !! l0 = h !! l0)
          ∧ get_info self (VRef l) h' = (h', inr (VRef l)).
Proof.
  intros Hm Hs.
  assert (h !! fresh (dom h) = None) as Hfresh
    by apply not_elem_of_dom, is_fresh.
  eexists (fresh (dom h)), _. split.
  { simpl. unfold InlineFormAdmin_new. rewrite decide_False; [done|].
    rewrite Hm, Hs. intros [[? ?]|[? ?]]; done. }
  split; [done|]. split.
  - intros l0 [o Ho]. apply lookup_insert_ne. congruence.
  - assert (isinstance
              (InlineFormAdmin_init (fresh (dom h)) InlineFormAdmin_instance
                 model opts) form_admin_class = true) as Hinst.
    { unfold isinstance. rewrite InlineFormAdmin_init_isinstance.
      by_evaluation. }
    cbn [get_info]. by rewrite lookup_insert_eq, Hinst.
Qed.

Lemma get_info_normalises_once_witness :
  ∃ l h', get_info inline_converter
            (VTuple [VClass "Email"; VDict ∅]) {[ 1%positive := plain_info ]}
          = (h', inr (VRef l))
          ∧ h' !! 1%positive = Some plain_info
          ∧ get_info inline_converter (VRef l) h' = (h', inr (VRef l)).
Proof.
  destruct (get_info_normalises_once inline_converter
              {[ 1%positive := plain_info ]} (VClass "Email") ∅)
    as (l & h' & Hrun & _ & Hframe & Hagain); [reflexivity|reflexivity|].
  exists l, h'. split; [done|]. split; [|done].
  rewrite Hframe; [|eexists]; apply lookup_singleton_eq.
Defined.

(** X18: normalisation and labelling together: a truthy [form_label] among
    the options of a pair is the label of every field of the descriptor
    [get_info] builds, whatever the view's [column_labels] say. *)
Theorem get_info_label_override self h model opts label name :
  opts !! "model" = None → opts !! "self" = None →
  opts !! "form_label" = Some label → truthy label = true →
  ∃ l h' info,
    get_info self (VTuple [model; VDict opts]) h = (h', inr (VRef l))
    ∧ h' !! l = Some info
    ∧ get_label self info name = label.
Proof.
  intros Hm Hs Hlabel Ht. eexists (fresh (dom h)), _, _. split.
  { simpl. unfold InlineFormAdmin_new. rewrite decide_False; [done|].
    rewrite Hm, Hs. intros [[? ?]|[? ?]]; done. }
  split; [apply lookup_insert_eq|].
  unfold get_label, getattr_default, InlineFormAdmin_init.
  rewrite InlineBaseFormAdmin_init_getattr by done.
  by rewrite Hlabel, Ht.
Qed.

Lemma get_info_label_override_witness :
  ∃ l h' info,
    get_info inline_converter
      (VTuple [VClass "Email"; VDict {[ "form_label" := VStr "Mail" ]}]) ∅
    = (h', inr (VRef l))
    ∧ h' !! l = Some info
    ∧ get_label inline_converter info "email" = VStr "Mail".
Proof.
  apply (get_info_label_override inline_converter ∅ (VClass "Email")
           {[ "form_label" := VStr "Mail" ]} (VStr "Mail") "email");
    vm_compute; reflexivity.
Defined.

(** X19: the rule set of a descriptor that [get_info] builds from truthy
    [form_rules] is bound to that descriptor: it holds the reference
    [get_info] returns. *)
Theorem get_info_rule_set_owner self h model opts rules :
  opts !! "model" = None → opts !! "self" = None →
  opts !! "form_rules" = Some rules → truthy rules = true →
  ∃ l h' info,
    get_info self (VTuple [model; VDict opts]) h = (h', inr (VRef l))
    ∧ h' !! l = Some info
    ∧ getattr info "_form_rules" = Some (VRuleSet l rules).
Proof.
  intros Hm Hs Hrules Ht. eexists (fresh (dom h)), _, _. split.
  { simpl. unfold InlineFormAdmin_new. rewrite decide_False; [done|].
    rewrite Hm, Hs. intros [[? ?]|[? ?]]; done. }
  split; [apply lookup_insert_eq|].
  unfold InlineFormAdmin_init. rewrite InlineBaseFormAdmin_init_rules.
  simpl. by rewrite Hrules, Ht.
Qed.

Lemma get_info_rule_set_owner_witness :
  ∃ l h' info,
    get_info inline_converter
      (VTuple [VClass "Email";
               VDict {[ "form_rules" := VList [VStr "name"] ]}]) ∅
    = (h', inr (VRef l))
    ∧ h' !! l = Some info
    ∧ getattr info "_form_rules" = Some (VRuleSet l (VList [VStr "name"])).
Proof.
  apply (get_info_rule_set_owner inline_converter ∅ (VClass "Email")
           {[ "form_rules" := VList [VStr "name"] ]} (VList [VStr "name"]));
    vm_compute; reflexivity.
Defined.

(** X20: normalisation and the compatibility helper together: a
    descriptor that [get_info] builds from a pair always has the [model]
    the warning is formatted with, so an override with the old signature is
    served on it: one warning naming the model, then the two-argument
    call. *)
Theorem get_info_descriptor_serves_old_signature {U : Type}
    self h model opts (m : method U) form row is_created (w : world U) :
  opts !! "model" = None → opts !! "self" = None →
  (∀ xs, model ≠ VTuple xs) →
  params m = 2 →
  ∃ l h' info,
    get_info self (VTuple [model; VDict opts]) h = (h', inr (VRef l))
    ∧ h' !! l = Some info
    ∧ _on_model_change info m form row is_created w
      = let '(u, r) := body m [form; row] (user w) in
        ({| warnings := warnings w ++ [Warn on_model_change_msg model];
            user := u |},
         match r with Some e => inl e | None => inr VNone end).
Proof.
  intros Hm Hs Hmodel Hp. eexists (fresh (dom h)), _, _. split.
  { simpl. unfold InlineFormAdmin_new. rewrite decide_False; [done|].
    rewrite Hm, Hs. intros [[? ?]|[? ?]]; done. }
  split; [apply lookup_insert_eq|].
  apply _on_model_change_legacy with (mv := model); [done| |].
  - unfold InlineFormAdmin_init.
    rewrite InlineBaseFormAdmin_init_getattr by done.
    rewrite Hm. by rewrite getattr_setattr, decide_True.
  - destruct model; try done. by destruct (Hmodel xs).
Qed.

Lemma get_info_descriptor_serves_old_signature_witness :
  ∃ l h' info,
    get_info inline_converter (VTuple [VClass "Email"; VDict ∅]) ∅
    = (h', inr (VRef l))
    ∧ h' !! l = Some info
    ∧ _on_model_change info legacy_hook (VStr "form") (VStr "row")
        (VBool true) quiet_world
      = ({| warnings := [Warn on_model_change_msg (VClass "Email")];
            user := 1 |}, inr VNone).
Proof.
  apply (get_info_descriptor_serves_old_signature inline_converter ∅
           (VClass "Email") ∅ legacy_hook (VStr "form") (VStr "row")
           (VBool true) quiet_world);
    [reflexivity|reflexivity|discriminate|reflexivity].
Defined.

End DescriptorNormalisation.
